(** * scrape_software_versions.py: a shallow embedding and its properties

    The script reads six version files, searches each with a regular
    expression, stores ["v" + group 1] in an ordered mapping initialised with
    a placeholder, drops falsy entries, prints a MultiQC YAML/HTML fragment and
    writes [software_versions.csv].

    Python values are modelled as follows.
    - [str] is [string]; the characters are 8-bit.
    - The plain dict [regexes] is a [gmap]; the order in which [.items()]
      yields its entries is not fixed by the model: the loop runs over any
      list that is a permutation of the map's entries.
    - [results], an [OrderedDict], is an association list in insertion order.
    - The working directory is a [gmap] from file names to contents.
    - Exceptions, the files, stdout and the global [results] are threaded by a
      small state-and-error monad; the state also keeps a journal of the
      assignments and deletions on [results].
    - Where the interpreters differ the model follows CPython 3: [\S] is the
      complement of [str.isspace], and an [OrderedDict] iterator raises
      [RuntimeError] when asked for a key after a deletion. The order of a
      plain dict, which older interpreters leave open, is left open here. *)

From Stdlib Require Import Ascii NArith Lia.
From stdpp Require Import gmap strings list fin_maps.

(** ** Characters that a Rocq string literal cannot hold directly *)

Definition dq : ascii := "034"%char.   (* the double quote *)
Definition bs : ascii := "092"%char.   (* the backslash *)
Definition nl : ascii := "010"%char.   (* \n *)
Definition tab : ascii := "009"%char.  (* \t *)

Definition chr (c : ascii) : string := String c EmptyString.

(** [not s] on a Python string: only the empty string is falsy. *)
Definition falsy (s : string) : bool :=
  match s with EmptyString => true | String _ _ => false end.

(** The escapes of a Python string literal that the script's literals use:
    backslash followed by a quote, a backslash, [n] or [t]. Any other
    backslash stays as it is. *)
Fixpoint py_literal (body : string) : string :=
  match body with
  | EmptyString => EmptyString
  | String c rest =>
      if Ascii.eqb c bs then
        match rest with
        | String e rest' =>
            if Ascii.eqb e dq then String dq (py_literal rest')
            else if Ascii.eqb e "'"%char then String "'"%char (py_literal rest')
            else if Ascii.eqb e bs then String bs (py_literal rest')
            else if Ascii.eqb e "n"%char then String nl (py_literal rest')
            else if Ascii.eqb e "t"%char then String tab (py_literal rest')
            else String c (py_literal rest)
        | EmptyString => String c EmptyString
        end
      else String c (py_literal rest)
  end.

(** ** Regular expressions: the fragment of [re] the table uses *)

Module Re.

(** An item matches exactly one character. *)
Inductive item : Type :=
| Chr (c : ascii)     (* an ordinary character, matching itself *)
| NonSpace.           (* \S *)

Inductive regex : Type :=
| Eps
| One (i : item)
| Plus (i : item)                 (* i+, greedy *)
| Group (n : nat) (r : regex)     (* the n-th capturing group *)
| Cat (r1 r2 : regex).

(** The characters [\s] matches in a [str] pattern, below 256:
    [ \t\n\r\f\v], the separators 0x1c..0x1f, NEL and NBSP. *)
Definition isspace (c : ascii) : bool :=
  let n := N_of_ascii c in
  ((9 <=? n) && (n <=? 13) || (28 <=? n) && (n <=? 32)
   || (n =? 133) || (n =? 160))%N.

Definition item_ok (i : item) (c : ascii) : bool :=
  match i with
  | Chr a => Ascii.eqb a c
  | NonSpace => negb (isspace c)
  end.

(** A run of ordinary characters. *)
Fixpoint lit (s : string) : regex :=
  match s with
  | EmptyString => Eps
  | String c s' => Cat (One (Chr c)) (lit s')
  end.

(** Concrete syntax, to compare a pattern with its source text. *)
Definition show_item (i : item) : string :=
  match i with
  | Chr c => chr c
  | NonSpace => String bs "S"
  end.

Fixpoint show (r : regex) : string :=
  match r with
  | Eps => ""
  | One i => show_item i
  | Plus i => show_item i +:+ "+"
  | Group _ r1 => "(" +:+ show r1 +:+ ")"
  | Cat r1 r2 => show r1 +:+ show r2
  end.

(** The text captured so far by each group. *)
Definition captures : Type := list (nat * string).

Fixpoint cap_get (n : nat) (cs : captures) : option string :=
  match cs with
  | [] => None
  | (m, t) :: cs' => if Nat.eqb n m then Some t else cap_get n cs'
  end.

Definition cap_set (n : nat) (t : string) (cs : captures) : captures :=
  (n, t) :: cs.

Fixpoint take (n : nat) (s : string) : string :=
  match n, s with
  | S n', String c s' => String c (take n' s')
  | _, _ => EmptyString
  end.

Fixpoint drop (n : nat) (s : string) : string :=
  match n, s with
  | S n', String _ s' => drop n' s'
  | _, _ => s
  end.

(** What was read between the text [s] and its suffix [t]. *)
Definition consumed (s t : string) : string :=
  take (String.length s - String.length t) s.

Section Matcher.
Context {A : Type}.

(** The rest of [i*], longest first, backing off one character at a
    time until the continuation accepts. *)
Fixpoint star (i : item) (s : string) (k : string → option A) : option A :=
  match s with
  | String c s' =>
      if item_ok i c then
        match star i s' k with
        | Some a => Some a
        | None => k s
        end
      else k s
  | EmptyString => k s
  end.

(** A backtracking matcher in continuation-passing style: [k] receives
    the unread text and the captures. *)
Fixpoint mat (r : regex) (s : string) (cs : captures)
    (k : string → captures → option A) : option A :=
  match r with
  | Eps => k s cs
  | One i =>
      match s with
      | String c s' => if item_ok i c then k s' cs else None
      | EmptyString => None
      end
  | Plus i =>
      match s with
      | String c s' =>
          if item_ok i c then star i s' (λ t, k t cs) else None
      | EmptyString => None
      end
  | Group n r1 => mat r1 s cs (λ t cs', k t (cap_set n (consumed s t) cs'))
  | Cat r1 r2 => mat r1 s cs (λ t cs', mat r2 t cs' k)
  end.
End Matcher.

(** A match object: where the match starts, the matched text (group 0)
    and the groups. *)
Record match_obj : Type := MatchObj {
  m_start : nat;
  m_text : string;
  m_groups : captures;
}.

(** [re.match] at offset [pos], where [s] is the text from there on. *)
Definition match_here (r : regex) (pos : nat) (s : string) : option match_obj :=
  mat r s [] (λ t cs, Some (MatchObj pos (consumed s t) cs)).

(** [re.search]: the first offset, from the left, at which the pattern
    matches; the offset just past the last character is tried too. *)
Fixpoint search_from (r : regex) (pos : nat) (s : string) : option match_obj :=
  match match_here r pos s with
  | Some m => Some m
  | None =>
      match s with
      | String _ s' => search_from r (S pos) s'
      | EmptyString => None
      end
  end.

Definition search (r : regex) (s : string) : option match_obj :=
  search_from r 0 s.

(** [m.group(n)] for [n >= 1]: [None] when the group took no part. *)
Definition group (n : nat) (m : match_obj) : option string :=
  cap_get n (m_groups m).

End Re.

(** [str.format] of the value of [m.group(n)]. *)
Definition format_group (g : option string) : string :=
  match g with
  | Some t => t
  | None => "None"
  end.

(** ** [collections.OrderedDict] with string keys and values *)

Module OD.

Definition t : Type := list (string * string).

Definition keys (d : t) : list string := map fst d.
Definition items (d : t) : list (string * string) := d.

(** [d[k]] *)
Fixpoint getitem (k : string) (d : t) : option string :=
  match d with
  | [] => None
  | (k', v) :: d' => if String.eqb k k' then Some v else getitem k d'
  end.

(** [d[k] = v]: an existing key keeps its place, a new one goes last. *)
Fixpoint setitem (k v : string) (d : t) : t :=
  match d with
  | [] => [(k, v)]
  | (k', v') :: d' =>
      if String.eqb k k' then (k', v) :: d' else (k', v') :: setitem k v d'
  end.

(** [del d[k]] *)
Fixpoint delitem (k : string) (d : t) : t :=
  match d with
  | [] => []
  | (k', v') :: d' =>
      if String.eqb k k' then d' else (k', v') :: delitem k d'
  end.

End OD.

(** ** The interpreter state and its monad *)

Inductive exn : Type :=
| FileNotFoundError (file : string)   (* open() of a file that is absent *)
| KeyError (key : string)             (* results[k] of a key that is absent *)
| RuntimeError.                       (* OrderedDict mutated during iteration *)

Inductive outcome (A : Type) : Type :=
| Ok (a : A)
| Raise (e : exn).
Arguments Ok {A} a.
Arguments Raise {A} e.

(** What was done to [results], oldest first. *)
Inductive event : Type :=
| SetItem (k v : string)
| DelItem (k : string).

Record state : Type := State {
  files : gmap string string;   (* the working directory *)
  stdout : string;              (* what has been printed *)
  results : OD.t;               (* the global [results] *)
  journal : list event;         (* the assignments and deletions on [results] *)
}.

Definition M (A : Type) : Type := state → outcome A * state.

Definition ret {A} (a : A) : M A := λ st, (Ok a, st).

Definition raise {A} (e : exn) : M A := λ st, (Raise e, st).

Definition bind {A B} (m : M A) (f : A → M B) : M B :=
  λ st,
    match m st with
    | (Ok a, st') => f a st'
    | (Raise e, st') => (Raise e, st')
    end.

Declare Scope py_scope.
Delimit Scope py_scope with py.
Notation "'let*' x ':=' m 'in' f" := (bind m (λ x, f))
  (at level 20, x name, m at level 100, f at level 200) : py_scope.
Notation "m ';;;' f" := (bind m (λ _, f))
  (at level 100, f at level 200, right associativity) : py_scope.
Local Open Scope py_scope.

(** [for x in xs: body x] over a list fixed when the loop starts. *)
Fixpoint for_each {A} (xs : list A) (body : A → M unit) : M unit :=
  match xs with
  | [] => ret tt
  | x :: xs' => body x ;;; for_each xs' body
  end.

(** [with open(name) as x: x.read()]; the directory maps a name to what
    [read()] returns for it. *)
Definition read_file (name : string) : M string :=
  λ st,
    match files st !! name with
    | Some text => (Ok text, st)
    | None => (Raise (FileNotFoundError name), st)
    end.

(** [open(name, 'w')]: the file is created, or emptied when it exists. *)
Definition open_w (name : string) : M unit :=
  λ st, (Ok tt, State (<[name := ""]> (files st)) (stdout st) (results st) (journal st)).

(** [f.write(text)] on the file opened as [name]. *)
Definition write (name text : string) : M unit :=
  λ st,
    (Ok tt, State (alter (λ old, old +:+ text) name (files st))
                  (stdout st) (results st) (journal st)).

(** [print(text)] *)
Definition print (text : string) : M unit :=
  λ st,
    (Ok tt, State (files st) (stdout st +:+ text +:+ chr nl) (results st) (journal st)).

(** [results = OrderedDict()] *)
Definition results_new : M unit :=
  λ st, (Ok tt, State (files st) (stdout st) [] (journal st)).

Definition results_read : M OD.t := λ st, (Ok (results st), st).

(** [results[k]] *)
Definition results_get (k : string) : M string :=
  λ st,
    match OD.getitem k (results st) with
    | Some v => (Ok v, st)
    | None => (Raise (KeyError k), st)
    end.

(** [results[k] = v] *)
Definition results_set (k v : string) : M unit :=
  λ st,
    (Ok tt, State (files st) (stdout st) (OD.setitem k v (results st))
                  (journal st ++ [SetItem k v])).

(** [del(results[k])] *)
Definition results_del (k : string) : M unit :=
  λ st,
    match OD.getitem k (results st) with
    | Some _ =>
        (Ok tt, State (files st) (stdout st) (OD.delitem k (results st))
                      (journal st ++ [DelItem k]))
    | None => (Raise (KeyError k), st)
    end.

(** ** The script *)

(** [(\S+)] *)
Definition version_group : Re.regex := Re.Group 1 (Re.Plus Re.NonSpace).

(** The pattern made of the ordinary characters [prefix] and [(\S+)]. *)
Definition pattern (prefix : string) : Re.regex :=
  Re.Cat (Re.lit prefix) version_group.

(** Lines 7-14, in the order of the source. *)
Definition regexes_src : list (string * (string * Re.regex)) :=
  [ ("nf-core/hlatyping", ("v_pipeline.txt", pattern ""));
    ("Nextflow", ("v_nextflow.txt", pattern ""));
    ("Samtools", ("v_samtools.txt", pattern "samtools "));
    ("Yara", ("v_yara.txt", pattern "yara_mapper version: "));
    ("Optitype", ("v_optitype.txt", pattern "Version: "));
    ("MultiQC", ("v_multiqc.txt", pattern "multiqc, version ")) ].

Definition regexes : gmap string (string * Re.regex) := list_to_map regexes_src.

(** The text between the quotes of the literal on lines 16-21. *)
Definition NA_source : string :=
  "<span style=" +:+ chr dq +:+ "color:#999999;" +:+ chr bs +:+ chr dq +:+ ">N/A</span>".

Definition NA : string := py_literal NA_source.

(** Lines 15-21. *)
Definition init_results : M unit :=
  results_new ;;;
  results_set "nf-core/hlatyping" NA ;;;
  results_set "Nextflow" NA ;;;
  results_set "Samtools" NA ;;;
  results_set "Yara" NA ;;;
  results_set "Optitype" NA ;;;
  results_set "MultiQC" NA.

(** Lines 25-29, the body of the loop over [regexes.items()]. *)
Definition scrape (kv : string * (string * Re.regex)) : M unit :=
  let '(k, v) := kv in
  let* versions := read_file v.1 in
  match Re.search v.2 versions with
  | Some m => results_set k ("v" +:+ format_group (Re.group 1 m))
  | None => ret tt
  end.

(** Lines 32-34. [ks] are the keys the iterator has still to yield and
    [mutated] tells whether a key was deleted since the iterator was made:
    asking such an iterator for a further key raises [RuntimeError], while
    an exhausted one just stops. *)
Fixpoint remove_loop (ks : list string) (mutated : bool) : M unit :=
  match ks with
  | [] => ret tt
  | k :: ks' =>
      if mutated then raise RuntimeError
      else
        let* v := results_get k in
        if falsy v then results_del k ;;; remove_loop ks' true
        else remove_loop ks' false
  end.

Definition remove_falsy : M unit :=
  let* d := results_read in remove_loop (OD.keys d) false.

(** The argument of the first [print], lines 37-45. *)
Definition yaml_head : string :=
  chr nl +:+
  "id: 'software_versions'" +:+ chr nl +:+
  "section_name: 'nf-core/hlatyping Software Versions'" +:+ chr nl +:+
  "section_href: 'https://github.com/nf-core/hlatyping'" +:+ chr nl +:+
  "plot_type: 'html'" +:+ chr nl +:+
  "description: 'are collected at run time from the software output.'" +:+ chr nl +:+
  "data: |" +:+ chr nl +:+
  "    <dl class=" +:+ chr dq +:+ "dl-horizontal" +:+ chr dq +:+ ">" +:+ chr nl.

(** Line 47: ["        <dt>{}</dt><dd><samp>{}</samp></dd>".format(k,v)] *)
Definition dt_dd (kv : string * string) : string :=
  "        <dt>" +:+ kv.1 +:+ "</dt><dd><samp>" +:+ kv.2 +:+ "</samp></dd>".

(** Line 53: ["{}\t{}\n".format(k,v)] *)
Definition csv_line (kv : string * string) : string :=
  kv.1 +:+ chr tab +:+ kv.2 +:+ chr nl.

Definition csv_name : string := "software_versions.csv".

(** Lines 36-48. *)
Definition dump_yaml : M unit :=
  print yaml_head ;;;
  (let* d := results_read in for_each (OD.items d) (λ kv, print (dt_dd kv))) ;;;
  print "    </dl>".

(** Lines 50-53. *)
Definition write_csv : M unit :=
  open_w csv_name ;;;
  let* d := results_read in
  for_each (OD.items d) (λ kv, write csv_name (csv_line kv)).

(** The whole script; [items] is what [regexes.items()] yields. *)
Definition script (items : list (string * (string * Re.regex))) : M unit :=
  init_results ;;;
  for_each items scrape ;;;
  remove_falsy ;;;
  dump_yaml ;;;
  write_csv.

(** The process starts with nothing printed and no [results]. *)
Definition start (fs : gmap string string) : state := State fs "" [] [].

Definition run (items : list (string * (string * Re.regex)))
    (fs : gmap string string) : outcome unit * state :=
  script items (start fs).

(** ** What the statements below speak about *)

(** The state after lines 15-29: the defaults and the loop over the table. *)
Definition extraction (items : list (string * (string * Re.regex))) : M unit :=
  init_results ;;; for_each items scrape.

(** The keys of [results], in the order of lines 16-21. *)
Definition tools : list string :=
  ["nf-core/hlatyping"; "Nextflow"; "Samtools"; "Yara"; "Optitype"; "MultiQC"].

(** The six file names of the table. *)
Definition inputs : list string := (λ kv, kv.2.1) <$> regexes_src.

(** Every file of the table is in the directory. *)
Definition all_present (fs : gmap string string) : Prop :=
  ∀ k v, regexes !! k = Some v → is_Some (fs !! v.1).

(** The value the loop body assigns for the entry [v] of the table, if any. *)
Definition scraped (fs : gmap string string) (v : string * Re.regex) : option string :=
  match fs !! v.1 with
  | Some text =>
      match Re.search v.2 text with
      | Some m => Some ("v" +:+ format_group (Re.group 1 m))
      | None => None
      end
  | None => None
  end.

(** The value of a tool once every file has been searched. *)
Definition value_of (fs : gmap string string) (k : string) : string :=
  match regexes !! k with
  | Some v => default NA (scraped fs v)
  | None => NA
  end.

Definition final_results (fs : gmap string string) : OD.t :=
  (λ k, (k, value_of fs k)) <$> tools.

Fixpoint concat_str (l : list string) : string :=
  match l with
  | [] => ""
  | x :: l' => x +:+ concat_str l'
  end.

(** The text on stdout for the mapping [d]. *)
Definition report (d : OD.t) : string :=
  yaml_head +:+ chr nl +:+
  concat_str ((λ kv, dt_dd kv +:+ chr nl) <$> d) +:+
  "    </dl>" +:+ chr nl.

(** The text of the csv file for the mapping [d]. *)
Definition csv_text (d : OD.t) : string := concat_str (csv_line <$> d).

(** The number of assignments to [results[k]] in a journal. *)
Fixpoint writes (k : string) (j : list event) : nat :=
  match j with
  | [] => 0
  | SetItem k' _ :: j' => (if String.eqb k' k then 1 else 0) + writes k j'
  | DelItem _ :: j' => writes k j'
  end.


(** The items the loop gets through: those before the first one whose file
    is missing. *)
Fixpoint processed (fs : gmap string string)
    (items : list (string * (string * Re.regex))) : list (string * (string * Re.regex)) :=
  match items with
  | [] => []
  | kv :: items' =>
      match fs !! kv.2.1 with
      | Some _ => kv :: processed fs items'
      | None => []
      end
  end.

Fixpoint loop_outcome (fs : gmap string string)
    (items : list (string * (string * Re.regex))) : outcome unit :=
  match items with
  | [] => Ok tt
  | kv :: items' =>
      match fs !! kv.2.1 with
      | Some _ => loop_outcome fs items'
      | None => Raise (FileNotFoundError kv.2.1)
      end
  end.

Definition update (fs : gmap string string) (d : OD.t)
    (kv : string * (string * Re.regex)) : OD.t :=
  match scraped fs kv.2 with
  | Some x => OD.setitem kv.1 x d
  | None => d
  end.

Definition assignment (fs : gmap string string)
    (kv : string * (string * Re.regex)) : option event :=
  SetItem kv.1 <$> scraped fs kv.2.

(** The text has a place, at or before its end, where the pattern matches. *)
Definition has_match (r : Re.regex) (text : string) : Prop :=
  ∃ pos, pos ≤ String.length text ∧ is_Some (Re.match_here r pos (Re.drop pos text)).

(** [m] is the match at the least offset; it is the one [re.search] returns. *)
Definition first_match (r : Re.regex) (text : string) (m : Re.match_obj) : Prop :=
  Re.m_start m ≤ String.length text ∧
  Re.match_here r (Re.m_start m) (Re.drop (Re.m_start m) text) = Some m ∧
  ∀ pos, pos < Re.m_start m → Re.match_here r pos (Re.drop pos text) = None.

(** The longest run of characters that are not white space at the head of [s]. *)
Fixpoint nonspace_run (s : string) : string :=
  match s with
  | String c s' => if Re.isspace c then "" else String c (nonspace_run s')
  | EmptyString => ""
  end.

Fixpoint all_nonspace (s : string) : bool :=
  match s with
  | String c s' => negb (Re.isspace c) && all_nonspace s'
  | EmptyString => true
  end.

(** [s] without the leading [p], when it starts with [p]. *)
Fixpoint strip_prefix (p s : string) : option string :=
  match p, s with
  | EmptyString, _ => Some s
  | String a p', String c s' => if Ascii.eqb a c then strip_prefix p' s' else None
  | String _ _, EmptyString => None
  end.

(** A match object relabelled with another offset. *)
Definition at_offset (pos : nat) (m : Re.match_obj) : Re.match_obj :=
  Re.MatchObj pos (Re.m_text m) (Re.m_groups m).

(** The match of [prefix(\S+)] at the head of [s]. *)
Definition version_here (p : string) (pos : nat) (s : string) : option Re.match_obj :=
  match strip_prefix p s with
  | Some t =>
      if falsy (nonspace_run t) then None
      else Some (Re.MatchObj pos (p +:+ nonspace_run t) [(1, nonspace_run t)])
  | None => None
  end.

(** The mapping and the journal after lines 15-21. *)
Definition init_d : OD.t := (λ k, (k, NA)) <$> tools.
Definition init_j : list event := (λ k, SetItem k NA) <$> tools.

(** The number of occurrences of [c] in [s]. *)
Fixpoint count_char (c : ascii) (s : string) : nat :=
  match s with
  | EmptyString => 0
  | String a s' => (if Ascii.eqb a c then 1 else 0) + count_char c s'
  end.

(** *** Directories to try the statements on *)

(** A directory with the six files, three of them with a version, and an
    old csv file. *)
Definition fs_example : gmap string string :=
  list_to_map
    [ ("v_pipeline.txt", "1.0dev");
      ("v_nextflow.txt", "  ");
      ("v_samtools.txt", "samtools 1.9" +:+ chr nl);
      ("v_yara.txt", "");
      ("v_optitype.txt", "");
      ("v_multiqc.txt", "multiqc, version 1.7");
      ("software_versions.csv", "stale") ].

(** A directory where only the Samtools file holds a version. *)
Definition fs_samtools : gmap string string :=
  list_to_map
    [ ("v_pipeline.txt", "");
      ("v_nextflow.txt", "");
      ("v_samtools.txt", "samtools 1.9" +:+ chr nl);
      ("v_yara.txt", "yara_mapper");
      ("v_optitype.txt", "");
      ("v_multiqc.txt", chr nl) ].

(** [fs_example] without the Yara file. *)
Definition fs_no_yara : gmap string string := delete "v_yara.txt" fs_example.

(** *** Further notions *)

(** Every character of [s] is white space. *)
Fixpoint all_space (s : string) : bool :=
  match s with
  | String c s' => Re.isspace c && all_space s'
  | EmptyString => true
  end.

(** The ordinary characters [p] occur in [text] at offset [pos], followed by
    a character that is not white space. *)
Definition version_at (p text : string) (pos : nat) : Prop :=
  ∃ pre c rest,
    text = pre +:+ p +:+ String c rest ∧ String.length pre = pos ∧
    Re.isspace c = false.

(** The text ends here or goes on with white space. *)
Definition stops (rest : string) : Prop :=
  match rest with
  | EmptyString => True
  | String c _ => Re.isspace c = true
  end.

(** Lines 36-53: the two outputs. *)
Definition emit : M unit := dump_yaml ;;; write_csv.

(** [fs_example] without the Yara and the Optitype files. *)
Definition fs_two_missing : gmap string string :=
  delete "v_optitype.txt" (delete "v_yara.txt" fs_example).


(** ** Strings *)

Lemma str_app_cons (c : ascii) (s t : string) : String c s +:+ t = String c (s +:+ t).
Proof. reflexivity. Qed.

Lemma str_app_nil_l (s : string) : "" +:+ s = s.
Proof. reflexivity. Qed.

Lemma str_app_nil_r (s : string) : s +:+ "" = s.
Proof. induction s as [|c s IH]; [done|]. by rewrite str_app_cons, IH. Qed.

Lemma app_assoc_str (s t u : string) : (s +:+ t) +:+ u = s +:+ (t +:+ u).
Proof. induction s as [|c s IH]; [done|]. by rewrite !str_app_cons, IH. Qed.

Lemma length_app_str (s t : string) :
  String.length (s +:+ t) = String.length s + String.length t.
Proof. induction s as [|c s IH]; [done|]. rewrite str_app_cons. simpl. by rewrite IH. Qed.

Lemma take_app_length (s t : string) : Re.take (String.length s) (s +:+ t) = s.
Proof. induction s as [|c s IH]; [by destruct t|]. rewrite str_app_cons. simpl. by rewrite IH. Qed.

Lemma consumed_app (s t : string) : Re.consumed (s +:+ t) t = s.
Proof.
  unfold Re.consumed. rewrite length_app_str.
  replace (String.length s + String.length t - String.length t) with (String.length s) by lia.
  apply take_app_length.
Qed.

Lemma drop_app_length (s t : string) : Re.drop (String.length s) (s +:+ t) = t.
Proof. induction s as [|c s IH]; [by destruct t|]. rewrite str_app_cons. simpl. by rewrite IH. Qed.

Lemma drop_length_le (n : nat) (s : string) :
  String.length (Re.drop n s) ≤ String.length s.
Proof.
  revert s. induction n as [|n IH]; intros [|c s]; simpl; try lia.
  specialize (IH s). lia.
Qed.

Lemma drop_S (n : nat) (c : ascii) (s : string) :
  Re.drop (S n) (String c s) = Re.drop n s.
Proof. reflexivity. Qed.

Lemma drop_nil (n : nat) : Re.drop n "" = "".
Proof. by destruct n. Qed.

Lemma take_drop_str (n : nat) (s : string) : Re.take n s +:+ Re.drop n s = s.
Proof.
  revert s. induction n as [|n IH]; intros [|c s]; try done.
  simpl. by rewrite str_app_cons, IH.
Qed.

Lemma length_take_le (n : nat) (s : string) :
  n ≤ String.length s → String.length (Re.take n s) = n.
Proof.
  revert s. induction n as [|n IH]; intros [|c s]; simpl; try lia.
  intros H. rewrite IH; lia.
Qed.

Lemma falsy_iff (s : string) : falsy s = true ↔ s = "".
Proof. by destruct s. Qed.

(** ** The model on small inputs *)

Example search_leftmost :
  Re.search (pattern "samtools ") ("xx samtools 1.9" +:+ chr nl +:+ "samtools 2") =
  Some (Re.MatchObj 3 "samtools 1.9" [(1, "1.9")]).
Proof. reflexivity. Qed.

Example search_skips_spaces :
  Re.search (pattern "") ("  " +:+ chr tab +:+ "19.04.0 build") =
  Some (Re.MatchObj 3 "19.04.0" [(1, "19.04.0")]).
Proof. reflexivity. Qed.

Example search_needs_a_version :
  Re.search (pattern "Version: ") ("Version: " +:+ chr nl) = None.
Proof. reflexivity. Qed.

Example search_empty : Re.search (pattern "") "" = None.
Proof. reflexivity. Qed.

(** An assignment to a new key goes last, to an old key stays in place. *)
Example setitem_order :
  OD.setitem "a" "2" (OD.setitem "b" "1" (OD.setitem "a" "1" [])) =
  [("a", "2"); ("b", "1")].
Proof. reflexivity. Qed.

(** The loop of lines 32-34 on a mapping that does hold a falsy value: the
    entry is deleted, and asking the iterator for the next key fails. *)
Example remove_falsy_mutation :
  remove_falsy (State ∅ "" [("a", ""); ("b", "x")] []) =
  (Raise RuntimeError, State ∅ "" [("b", "x")] [DelItem "a"]).
Proof. reflexivity. Qed.

(** When the falsy value is the last one the loop just ends. *)
Example remove_falsy_last :
  remove_falsy (State ∅ "" [("a", "x"); ("b", "")] []) =
  (Ok tt, State ∅ "" [("a", "x")] [DelItem "b"]).
Proof. reflexivity. Qed.

Example run_csv :
  files (run regexes_src fs_samtools).2 !! csv_name =
  Some ("nf-core/hlatyping" +:+ chr tab +:+ NA +:+ chr nl +:+
        "Nextflow" +:+ chr tab +:+ NA +:+ chr nl +:+
        "Samtools" +:+ chr tab +:+ "v1.9" +:+ chr nl +:+
        "Yara" +:+ chr tab +:+ NA +:+ chr nl +:+
        "Optitype" +:+ chr tab +:+ NA +:+ chr nl +:+
        "MultiQC" +:+ chr tab +:+ NA +:+ chr nl).
Proof. vm_compute. reflexivity. Qed.

Example run_no_yara :
  (run (reverse regexes_src) fs_no_yara).1 = Raise (FileNotFoundError "v_yara.txt").
Proof. vm_compute. reflexivity. Qed.

(** ** The matcher *)

Lemma star_ext {A} (i : Re.item) (s : string) (k k' : string → option A) :
  (∀ t, k t = k' t) → Re.star i s k = Re.star i s k'.
Proof.
  intros Hk. induction s as [|c s IH]; simpl; [done|].
  rewrite IH, Hk. done.
Qed.

Lemma mat_ext {A} (r : Re.regex) :
  ∀ (s : string) (cs : Re.captures) (k k' : string → Re.captures → option A),
    (∀ t cs', k t cs' = k' t cs') → Re.mat r s cs k = Re.mat r s cs k'.
Proof.
  induction r as [|i|i|n r IH|r1 IH1 r2 IH2]; intros s cs k k' Hk; simpl.
  - done.
  - destruct s as [|c s]; [done|]. by rewrite Hk.
  - destruct s as [|c s]; [done|]. destruct (Re.item_ok i c); [|done].
    apply star_ext. intros t. apply Hk.
  - apply IH. intros t cs'. apply Hk.
  - apply IH1. intros t cs'. by apply IH2.
Qed.

Lemma star_fmap {A B} (f : A → B) (i : Re.item) (s : string) (k : string → option A) :
  Re.star i s (λ t, f <$> k t) = f <$> Re.star i s k.
Proof.
  induction s as [|c s IH]; simpl; [done|].
  destruct (Re.item_ok i c); [|done].
  rewrite IH. by destruct (Re.star i s k).
Qed.

Lemma mat_fmap {A B} (f : A → B) (r : Re.regex) :
  ∀ (s : string) (cs : Re.captures) (k : string → Re.captures → option A),
    Re.mat r s cs (λ t cs', f <$> k t cs') = f <$> Re.mat r s cs k.
Proof.
  induction r as [|i|i|n r IH|r1 IH1 r2 IH2]; intros s cs k; simpl.
  - done.
  - destruct s as [|c s]; [done|]. by destruct (Re.item_ok i c).
  - destruct s as [|c s]; [done|]. destruct (Re.item_ok i c); [|done].
    apply (star_fmap f i s (λ t, k t cs)).
  - apply (IH s cs (λ t cs', k t (Re.cap_set n (Re.consumed s t) cs'))).
  - rewrite <- IH1. apply mat_ext. intros t cs'. apply IH2.
Qed.

(** The offset only labels the match. *)
Lemma match_here_offset (r : Re.regex) (pos pos' : nat) (s : string) :
  Re.match_here r pos s = at_offset pos <$> Re.match_here r pos' s.
Proof.
  unfold Re.match_here. rewrite <- mat_fmap. by apply mat_ext.
Qed.

Lemma match_here_start (r : Re.regex) (pos : nat) (s : string) (m : Re.match_obj) :
  Re.match_here r pos s = Some m → Re.m_start m = pos.
Proof.
  rewrite (match_here_offset r pos 0).
  destruct (Re.match_here r 0 s); intros H; simplify_eq/=. done.
Qed.

Lemma match_here_None (r : Re.regex) (pos pos' : nat) (s : string) :
  Re.match_here r pos s = None → Re.match_here r pos' s = None.
Proof.
  rewrite (match_here_offset r pos pos').
  by destruct (Re.match_here r pos' s).
Qed.

(** [search_from] stops at the least offset where the pattern matches. *)
Lemma search_from_Some (r : Re.regex) (s : string) :
  ∀ (pos : nat) (m : Re.match_obj),
    Re.search_from r pos s = Some m →
    ∃ j, j ≤ String.length s ∧ Re.m_start m = pos + j ∧
         Re.match_here r (pos + j) (Re.drop j s) = Some m ∧
         ∀ i, i < j → Re.match_here r (pos + i) (Re.drop i s) = None.
Proof.
  induction s as [|c s IH]; intros pos m; simpl.
  - destruct (Re.match_here r pos "") eqn:E; [|done].
    intros [= ->]. exists 0. rewrite Nat.add_0_r.
    split; [lia|]. split; [by eapply match_here_start|]. split; [done|]. lia.
  - destruct (Re.match_here r pos (String c s)) eqn:E.
    + intros [= ->]. exists 0. rewrite Nat.add_0_r.
      split; [lia|]. split; [by eapply match_here_start|]. split; [done|]. lia.
    + intros H. destruct (IH _ _ H) as (j & Hj & Hs & Hm & Hlt).
      exists (S j). rewrite <- Nat.add_succ_comm.
      split; [lia|]. split; [done|]. split; [done|].
      intros [|i] Hi.
      * by rewrite Nat.add_0_r.
      * rewrite <- Nat.add_succ_comm. apply Hlt. lia.
Qed.

Lemma search_from_None (r : Re.regex) (s : string) :
  ∀ (pos : nat),
    Re.search_from r pos s = None →
    ∀ j, j ≤ String.length s → Re.match_here r (pos + j) (Re.drop j s) = None.
Proof.
  induction s as [|c s IH]; intros pos; simpl.
  - destruct (Re.match_here r pos "") eqn:E; [done|].
    intros _ j Hj. replace j with 0 by lia. by rewrite Nat.add_0_r.
  - destruct (Re.match_here r pos (String c s)) eqn:E; [done|].
    intros H [|j] Hj.
    + by rewrite Nat.add_0_r.
    + rewrite <- Nat.add_succ_comm. apply IH; [done|lia].
Qed.

Lemma search_first_match (r : Re.regex) (text : string) (m : Re.match_obj) :
  Re.search r text = Some m → first_match r text m.
Proof.
  intros H. apply search_from_Some in H as (j & Hj & Hs & Hm & Hlt).
  simpl in *. subst j. repeat split; [done|done|].
  intros pos Hpos. by apply Hlt.
Qed.

Lemma has_match_search (r : Re.regex) (text : string) :
  has_match r text ↔ is_Some (Re.search r text).
Proof.
  split.
  - intros (pos & Hpos & Hm).
    destruct (Re.search r text) as [m|] eqn:E; [by eexists|].
    pose proof (search_from_None r text 0 E pos Hpos) as Hn. simpl in Hn.
    rewrite Hn in Hm. by destruct Hm.
  - intros [m Hm]. apply search_first_match in Hm as (Hle & Hm & _).
    exists (Re.m_start m). split; [done|]. by rewrite Hm.
Qed.

(** *** The patterns of the table *)

Lemma strip_prefix_Some (p s t : string) :
  strip_prefix p s = Some t ↔ s = p +:+ t.
Proof.
  revert s. induction p as [|a p IH]; intros s; simpl.
  - rewrite str_app_nil_l. split; congruence.
  - destruct s as [|c s]; rewrite str_app_cons; [split; congruence|].
    destruct (Ascii.eqb_spec a c) as [->|Hne].
    + rewrite IH. split; [by intros ->|congruence].
    + split; [done|congruence].
Qed.

Lemma mat_lit {A} (p : string) :
  ∀ (s : string) (cs : Re.captures) (k : string → Re.captures → option A),
    Re.mat (Re.lit p) s cs k =
    match strip_prefix p s with
    | Some t => k t cs
    | None => None
    end.
Proof.
  induction p as [|a p IH]; intros s cs k; simpl; [done|].
  destruct s as [|c s]; [done|]. unfold Re.item_ok.
  destruct (Ascii.eqb a c); [apply IH|done].
Qed.

Lemma nonspace_run_split (s : string) :
  s = nonspace_run s +:+ Re.drop (String.length (nonspace_run s)) s.
Proof.
  induction s as [|c s IH]; simpl; [done|].
  destruct (Re.isspace c); [done|].
  rewrite str_app_cons. simpl. by rewrite <- IH.
Qed.

Lemma nonspace_run_all (s : string) : all_nonspace (nonspace_run s) = true.
Proof.
  induction s as [|c s IH]; simpl; [done|].
  destruct (Re.isspace c) eqn:E; simpl; [done|]. by rewrite E, IH.
Qed.

(** After the run comes the end of the text or white space. *)
Lemma nonspace_run_stop (s : string) :
  match Re.drop (String.length (nonspace_run s)) s with
  | EmptyString => True
  | String c _ => Re.isspace c = true
  end.
Proof.
  induction s as [|c s IH]; simpl; [done|].
  destruct (Re.isspace c) eqn:E; simpl; done.
Qed.

Lemma nonspace_run_app (g rest : string) :
  all_nonspace g = true →
  match rest with EmptyString => True | String c _ => Re.isspace c = true end →
  nonspace_run (g +:+ rest) = g.
Proof.
  intros Hg Hrest. induction g as [|c g IH].
  - rewrite str_app_nil_l. destruct rest as [|c rest]; simpl; [done|]. by rewrite Hrest.
  - rewrite str_app_cons. simpl in *. apply andb_true_iff in Hg as [Hc Hg].
    apply negb_true_iff in Hc. rewrite Hc. by rewrite IH.
Qed.

(** With a continuation that never fails, the greedy loop takes the whole run. *)
Lemma star_nonspace {A} (s : string) (k : string → option A) :
  (∀ t, is_Some (k t)) →
  Re.star Re.NonSpace s k = k (Re.drop (String.length (nonspace_run s)) s).
Proof.
  intros Hk. induction s as [|c s IH]; simpl; [done|].
  destruct (Re.isspace c); simpl; [done|].
  rewrite IH. by destruct (Hk (Re.drop (String.length (nonspace_run s)) s)) as [a ->].
Qed.

Lemma match_here_pattern (p : string) (pos : nat) (s : string) :
  Re.match_here (pattern p) pos s = version_here p pos s.
Proof.
  unfold Re.match_here, pattern, version_here, version_group. simpl.
  rewrite mat_lit. destruct (strip_prefix p s) as [t|] eqn:Hp; [|done].
  apply strip_prefix_Some in Hp as ->.
  destruct t as [|c t]; simpl; [done|].
  destruct (Re.isspace c) eqn:Hc; simpl; [done|].
  rewrite star_nonspace by (intros u; by eexists).
  f_equal. f_equal.
  - rewrite (nonspace_run_split t) at 1.
    rewrite <- str_app_cons, <- app_assoc_str. apply consumed_app.
  - unfold Re.cap_set. f_equal. f_equal. rewrite (nonspace_run_split t) at 1.
    rewrite <- str_app_cons. apply consumed_app.
Qed.

(** ** The ordered mapping *)

Lemma getitem_setitem (k k' v : string) (d : OD.t) :
  OD.getitem k' (OD.setitem k v d) =
  if String.eqb k' k then Some v else OD.getitem k' d.
Proof.
  induction d as [|[k1 v1] d IH]; simpl.
  - by destruct (String.eqb k' k).
  - destruct (String.eqb_spec k k1) as [->|Hne]; simpl.
    + by destruct (String.eqb k' k1).
    + rewrite IH. destruct (String.eqb_spec k' k1) as [->|Hne']; [|done].
      apply String.eqb_neq in Hne. rewrite String.eqb_sym in Hne. by rewrite Hne.
Qed.

Lemma getitem_setitem_ne (k k' v : string) (d : OD.t) :
  k' ≠ k → OD.getitem k' (OD.setitem k v d) = OD.getitem k' d.
Proof.
  intros Hne. rewrite getitem_setitem.
  apply String.eqb_neq in Hne. by rewrite Hne.
Qed.

Lemma getitem_setitem_eq (k v : string) (d : OD.t) :
  OD.getitem k (OD.setitem k v d) = Some v.
Proof. by rewrite getitem_setitem, String.eqb_refl. Qed.

(** Assigning to a key that is there keeps the order of the keys. *)
Lemma keys_setitem (k v : string) (d : OD.t) :
  k ∈ OD.keys d → OD.keys (OD.setitem k v d) = OD.keys d.
Proof.
  induction d as [|[k1 v1] d IH]; simpl.
  - by intros ?%elem_of_nil.
  - intros Hin. destruct (String.eqb_spec k k1) as [->|Hne]; simpl; [done|].
    f_equal. apply IH. apply elem_of_cons in Hin as [?|?]; [done|done].
Qed.


(** Two mappings with the same keys in the same order, none twice, and the
    same value at each key are the same mapping. *)
Lemma od_ext (d : OD.t) :
  ∀ d' : OD.t,
    OD.keys d = OD.keys d' → NoDup (OD.keys d) →
    (∀ k, k ∈ OD.keys d → OD.getitem k d = OD.getitem k d') →
    d = d'.
Proof.
  induction d as [|[k v] d IH]; intros [|[k' v'] d']; simpl; try done.
  intros [= <- Hk] [Hnin Hnd]%NoDup_cons Hget.
  pose proof (Hget k (list_elem_of_here _ _)) as Hv. simpl in Hv.
  rewrite String.eqb_refl in Hv. injection Hv as <-.
  f_equal. apply IH; [done|done|].
  intros k1 Hk1. specialize (Hget k1 (list_elem_of_further _ _ _ Hk1)).
  simpl in Hget.
  destruct (String.eqb_spec k1 k) as [Heq|Hne]; [|done].
  subst k1. by destruct Hnin.
Qed.

Lemma getitem_fmap_tools (f : string → string) (l : list string) (k : string) :
  k ∈ l → OD.getitem k ((λ k, (k, f k)) <$> l) = Some (f k).
Proof.
  induction l as [|k1 l IH]; simpl.
  - by intros ?%elem_of_nil.
  - intros Hin. destruct (String.eqb_spec k k1) as [->|Hne]; [done|].
    apply IH. by apply elem_of_cons in Hin as [?|?].
Qed.

Lemma keys_fmap_tools (f : string → string) (l : list string) :
  OD.keys ((λ k, (k, f k)) <$> l) = l.
Proof.
  unfold OD.keys. induction l as [|k1 l IH]; [done|].
  rewrite fmap_cons. simpl. by f_equal.
Qed.

(** ** The updates of the loop, as a fold *)

Lemma update_get_ne (fs : gmap string string) (d : OD.t)
    (kv : string * (string * Re.regex)) (k : string) :
  k ≠ kv.1 → OD.getitem k (update fs d kv) = OD.getitem k d.
Proof.
  intros Hne. unfold update. destruct (scraped fs kv.2); [|done].
  by apply getitem_setitem_ne.
Qed.

Lemma update_get_eq (fs : gmap string string) (d : OD.t)
    (kv : string * (string * Re.regex)) :
  OD.getitem kv.1 (update fs d kv) =
  match scraped fs kv.2 with
  | Some x => Some x
  | None => OD.getitem kv.1 d
  end.
Proof.
  unfold update. destruct (scraped fs kv.2); [|done].
  apply getitem_setitem_eq.
Qed.

Lemma update_keys (fs : gmap string string) (d : OD.t)
    (kv : string * (string * Re.regex)) :
  kv.1 ∈ OD.keys d → OD.keys (update fs d kv) = OD.keys d.
Proof.
  intros Hin. unfold update. destruct (scraped fs kv.2); [|done].
  by apply keys_setitem.
Qed.

Lemma foldl_update_keys (fs : gmap string string)
    (items : list (string * (string * Re.regex))) :
  ∀ d : OD.t,
    (∀ kv, kv ∈ items → kv.1 ∈ OD.keys d) →
    OD.keys (foldl (update fs) d items) = OD.keys d.
Proof.
  induction items as [|kv items IH]; intros d Hin; simpl; [done|].
  assert (OD.keys (update fs d kv) = OD.keys d) as Hk.
  { apply update_keys, Hin, list_elem_of_here. }
  rewrite IH; [done|].
  intros kv' Hkv'. rewrite Hk. apply Hin. by apply list_elem_of_further.
Qed.

Lemma foldl_update_other (fs : gmap string string)
    (items : list (string * (string * Re.regex))) (k : string) :
  ∀ d : OD.t,
    k ∉ items.*1 →
    OD.getitem k (foldl (update fs) d items) = OD.getitem k d.
Proof.
  induction items as [|kv items IH]; intros d Hk; simpl; [done|].
  simpl in Hk. apply not_elem_of_cons in Hk as [Hne Hk].
  rewrite IH by done. by apply update_get_ne.
Qed.

Lemma foldl_update_get (fs : gmap string string)
    (items : list (string * (string * Re.regex))) (k : string) (v : string * Re.regex) :
  ∀ d : OD.t,
    NoDup items.*1 → (k, v) ∈ items →
    OD.getitem k (foldl (update fs) d items) =
    match scraped fs v with
    | Some x => Some x
    | None => OD.getitem k d
    end.
Proof.
  induction items as [|kv items IH]; intros d Hnd Hin; simpl.
  - by apply elem_of_nil in Hin.
  - simpl in Hnd. apply NoDup_cons in Hnd as [Hnin Hnd].
    apply elem_of_cons in Hin as [<-|Hin].
    + rewrite foldl_update_other by done. apply (update_get_eq fs d (k, v)).
    + rewrite IH by done.
      destruct (scraped fs v); [done|].
      apply update_get_ne. intros ->. apply Hnin.
      apply list_elem_of_fmap. by exists (kv.1, v).
Qed.

(** ** Running the monad *)

Lemma bind_ok {A B} (m : M A) (f : A → M B) (st st' : state) (a : A) :
  m st = (Ok a, st') → bind m f st = f a st'.
Proof. intros H. unfold bind. by rewrite H. Qed.

Lemma bind_raise {A B} (m : M A) (f : A → M B) (st st' : state) (e : exn) :
  m st = (Raise e, st') → bind m f st = (Raise e, st').
Proof. intros H. unfold bind. by rewrite H. Qed.

Lemma bind_assoc {A B C} (m : M A) (f : A → M B) (g : B → M C) (st : state) :
  bind (bind m f) g st = bind m (λ a, bind (f a) g) st.
Proof. unfold bind. destruct (m st) as [[a|e] st']; [|done]. done. Qed.

Lemma state_eta (st : state) :
  State (files st) (stdout st) (results st) (journal st) = st.
Proof. by destruct st. Qed.

(** *** The loop over the table *)

Lemma scrape_present (k file : string) (r : Re.regex) (st : state) (text : string) :
  files st !! file = Some text →
  scrape (k, (file, r)) st =
  (Ok tt, State (files st) (stdout st)
            (update (files st) (results st) (k, (file, r)))
            (journal st ++ option_list (assignment (files st) (k, (file, r))))).
Proof.
  intros Hf. unfold scrape, bind, read_file, update, assignment, scraped. simpl.
  rewrite Hf. destruct (Re.search r text) as [m|]; simpl.
  - done.
  - unfold ret. by rewrite app_nil_r, state_eta.
Qed.

Lemma scrape_absent (k file : string) (r : Re.regex) (st : state) :
  files st !! file = None →
  scrape (k, (file, r)) st = (Raise (FileNotFoundError file), st).
Proof.
  intros Hf. unfold scrape, bind, read_file. simpl. by rewrite Hf.
Qed.

(** The loop in one equation: it gets through the items before the first
    missing file, and changes [results] and its journal only. *)
Lemma scrape_loop (items : list (string * (string * Re.regex))) :
  ∀ st : state,
    for_each items scrape st =
    (loop_outcome (files st) items,
     State (files st) (stdout st)
       (foldl (update (files st)) (results st) (processed (files st) items))
       (journal st ++ omap (assignment (files st)) (processed (files st) items))).
Proof.
  induction items as [|[k [file r]] items IH]; intros st.
  - simpl. unfold ret. by rewrite app_nil_r, state_eta.
  - simpl. destruct (files st !! file) as [text|] eqn:Hf.
    + rewrite (bind_ok _ _ _ _ _ (scrape_present k file r st text Hf)).
      rewrite IH. simpl. f_equal. f_equal.
      rewrite <- app_assoc. f_equal.
      destruct (assignment (files st) (k, (file, r))); reflexivity.
    + rewrite (bind_raise _ _ _ _ _ (scrape_absent k file r st Hf)).
      simpl. by rewrite app_nil_r, state_eta.
Qed.

Lemma processed_all (fs : gmap string string)
    (items : list (string * (string * Re.regex))) :
  (∀ kv, kv ∈ items → is_Some (fs !! kv.2.1)) →
  processed fs items = items ∧ loop_outcome fs items = Ok tt.
Proof.
  induction items as [|kv items IH]; intros Hall; simpl; [done|].
  destruct (Hall kv (list_elem_of_here _ _)) as [text ->].
  destruct IH as [-> ->]; [|done].
  intros kv' Hin. apply Hall. by apply list_elem_of_further.
Qed.

Lemma processed_sublist (fs : gmap string string)
    (items : list (string * (string * Re.regex))) :
  sublist (processed fs items) items.
Proof.
  induction items as [|kv items IH]; simpl; [done|].
  destruct (fs !! kv.2.1).
  - by apply sublist_skip.
  - apply sublist_nil_l.
Qed.

Lemma loop_outcome_missing (fs : gmap string string)
    (items : list (string * (string * Re.regex))) :
  (∃ kv, kv ∈ items ∧ fs !! kv.2.1 = None) →
  ∃ kv, kv ∈ items ∧ fs !! kv.2.1 = None ∧
        loop_outcome fs items = Raise (FileNotFoundError kv.2.1).
Proof.
  induction items as [|kv items IH]; intros (kv' & Hin & Hnone).
  - by apply elem_of_nil in Hin.
  - simpl. destruct (fs !! kv.2.1) as [text|] eqn:Hf.
    + apply elem_of_cons in Hin as [->|Hin]; [congruence|].
      destruct IH as (kv1 & Hin1 & Hn1 & Ho); [by eauto|].
      exists kv1. split; [by apply list_elem_of_further|done].
    + exists kv. split; [apply list_elem_of_here|done].
Qed.

(** *** The loops that print and write *)

Lemma print_loop {A} (f : A → string) (l : list A) :
  ∀ st : state,
    for_each l (λ x, print (f x)) st =
    (Ok tt, State (files st)
              (stdout st +:+ concat_str ((λ x, f x +:+ chr nl) <$> l))
              (results st) (journal st)).
Proof.
  induction l as [|x l IH]; intros st; simpl.
  - unfold ret. by rewrite str_app_nil_r, state_eta.
  - unfold bind, print at 1. rewrite IH. simpl.
    by rewrite !app_assoc_str.
Qed.

Lemma alter_present (g : string → string) (name old : string) (fs : gmap string string) :
  fs !! name = Some old → alter g name fs = <[name := g old]> fs.
Proof.
  intros H. apply map_eq. intros i.
  rewrite lookup_alter, lookup_insert.
  destruct (decide (name = i)) as [->|Hne]; [by rewrite H|done].
Qed.

Lemma write_loop {A} (f : A → string) (name : string) (l : list A) :
  ∀ (st : state) (old : string),
    files st !! name = Some old →
    for_each l (λ x, write name (f x)) st =
    (Ok tt, State (<[name := old +:+ concat_str (f <$> l)]> (files st))
              (stdout st) (results st) (journal st)).
Proof.
  induction l as [|x l IH]; intros st old Hold; simpl.
  - unfold ret. rewrite str_app_nil_r, insert_id by done. by rewrite state_eta.
  - unfold bind, write at 1.
    rewrite (IH _ (old +:+ f x)); simpl.
    + rewrite (alter_present _ _ _ _ Hold), insert_insert_eq.
      by rewrite app_assoc_str.
    + rewrite (alter_present _ _ _ _ Hold). apply lookup_insert_eq.
Qed.

(** *** The loop that drops falsy entries *)

Lemma remove_loop_noop (ks : list string) (st : state) :
  (∀ k, k ∈ ks → ∃ v, OD.getitem k (results st) = Some v ∧ falsy v = false) →
  remove_loop ks false st = (Ok tt, st).
Proof.
  induction ks as [|k ks IH]; intros Hall; simpl; [done|].
  destruct (Hall k (list_elem_of_here _ _)) as (v & Hv & Hf).
  unfold bind, results_get. rewrite Hv, Hf.
  apply IH. intros k' Hk'. apply Hall. by apply list_elem_of_further.
Qed.

(** ** The table *)

Lemma regexes_src_keys : regexes_src.*1 = tools.
Proof. reflexivity. Qed.

Lemma tools_NoDup : NoDup tools.
Proof. apply (bool_decide_unpack _). by vm_compute. Qed.

Lemma inputs_NoDup : NoDup inputs.
Proof. apply (bool_decide_unpack _). by vm_compute. Qed.

(** The patterns, printed, are the raw strings of lines 8-13. *)
Lemma regexes_src_text :
  (λ kv, (kv.1, (kv.2.1, Re.show kv.2.2))) <$> regexes_src =
  [ ("nf-core/hlatyping", ("v_pipeline.txt", "(\S+)"));
    ("Nextflow", ("v_nextflow.txt", "(\S+)"));
    ("Samtools", ("v_samtools.txt", "samtools (\S+)"));
    ("Yara", ("v_yara.txt", "yara_mapper version: (\S+)"));
    ("Optitype", ("v_optitype.txt", "Version: (\S+)"));
    ("MultiQC", ("v_multiqc.txt", "multiqc, version (\S+)")) ].
Proof. reflexivity. Qed.

(** Whatever the order of [regexes.items()], it lists the source's entries. *)
Lemma items_src (items : list (string * (string * Re.regex))) :
  items ≡ₚ map_to_list regexes → items ≡ₚ regexes_src.
Proof.
  intros ->. apply map_to_list_to_map.
  rewrite regexes_src_keys. apply tools_NoDup.
Qed.

Lemma items_lookup (items : list (string * (string * Re.regex)))
    (k : string) (v : string * Re.regex) :
  items ≡ₚ map_to_list regexes → (k, v) ∈ items ↔ regexes !! k = Some v.
Proof. intros ->. apply elem_of_map_to_list. Qed.

Lemma items_keys (items : list (string * (string * Re.regex))) :
  items ≡ₚ map_to_list regexes → items.*1 ≡ₚ tools.
Proof. intros H%items_src. by rewrite H. Qed.

Lemma items_NoDup (items : list (string * (string * Re.regex))) :
  items ≡ₚ map_to_list regexes → NoDup items.*1.
Proof. intros H%items_keys. rewrite H. apply tools_NoDup. Qed.

Lemma tools_lookup (k : string) : k ∈ tools ↔ is_Some (regexes !! k).
Proof.
  rewrite <- regexes_src_keys. unfold regexes. split.
  - intros ((k' & v) & -> & Hin)%list_elem_of_fmap. exists v.
    apply elem_of_list_to_map; [|done].
    rewrite regexes_src_keys. apply tools_NoDup.
  - intros [v Hv]. apply elem_of_list_to_map in Hv.
    + apply list_elem_of_fmap. by exists (k, v).
    + rewrite regexes_src_keys. apply tools_NoDup.
Qed.

(** Every pattern of the table is ordinary characters followed by [(\S+)]. *)
Lemma regexes_pattern (k : string) (v : string * Re.regex) :
  regexes !! k = Some v → ∃ p, v.2 = pattern p.
Proof.
  intros Hv. apply elem_of_list_to_map in Hv.
  - unfold regexes_src in Hv. repeat (apply elem_of_cons in Hv as [[= -> ->]|Hv]; [by eexists|]).
    by apply elem_of_nil in Hv.
  - rewrite regexes_src_keys. apply tools_NoDup.
Qed.

Lemma regexes_input (k : string) (v : string * Re.regex) :
  regexes !! k = Some v → v.1 ∈ inputs.
Proof.
  intros Hv. apply elem_of_list_to_map in Hv.
  - apply list_elem_of_fmap. by exists (k, v).
  - rewrite regexes_src_keys. apply tools_NoDup.
Qed.

(** ** The values *)

Lemma NA_value :
  NA = "<span style=" +:+ chr dq +:+ "color:#999999;" +:+ chr dq +:+ ">N/A</span>".
Proof. reflexivity. Qed.

Lemma scraped_truthy (fs : gmap string string) (v : string * Re.regex) (x : string) :
  scraped fs v = Some x → ∃ t, x = String "v" t.
Proof.
  unfold scraped. destruct (fs !! v.1) as [text|]; [|done].
  destruct (Re.search v.2 text) as [m|]; [|done].
  intros [= <-]. by eexists.
Qed.

Lemma value_of_cases (fs : gmap string string) (k : string) :
  value_of fs k = NA ∨ ∃ t, value_of fs k = String "v" t.
Proof.
  unfold value_of. destruct (regexes !! k) as [v|]; [|by left].
  destruct (scraped fs v) as [x|] eqn:E; simpl; [|by left].
  right. by eapply scraped_truthy.
Qed.

Lemma value_of_truthy (fs : gmap string string) (k : string) :
  falsy (value_of fs k) = false.
Proof.
  destruct (value_of_cases fs k) as [->|[t ->]]; reflexivity.
Qed.

Lemma final_results_keys (fs : gmap string string) :
  OD.keys (final_results fs) = tools.
Proof. apply keys_fmap_tools. Qed.

Lemma final_results_get (fs : gmap string string) (k : string) :
  k ∈ tools → OD.getitem k (final_results fs) = Some (value_of fs k).
Proof. apply (getitem_fmap_tools (value_of fs)). Qed.

(** ** The extraction pass *)

Lemma init_results_run (fs : gmap string string) :
  init_results (start fs) = (Ok tt, State fs "" init_d init_j).
Proof. reflexivity. Qed.

Lemma extraction_run (items : list (string * (string * Re.regex)))
    (fs : gmap string string) :
  extraction items (start fs) =
  (loop_outcome fs items,
   State fs ""
     (foldl (update fs) init_d (processed fs items))
     (init_j ++ omap (assignment fs) (processed fs items))).
Proof.
  unfold extraction.
  rewrite (bind_ok _ _ _ _ _ (init_results_run fs)).
  by rewrite scrape_loop.
Qed.

(** The fold over the whole table gives the same mapping in any order. *)
Lemma foldl_final (items : list (string * (string * Re.regex)))
    (fs : gmap string string) :
  items ≡ₚ map_to_list regexes →
  foldl (update fs) init_d items = final_results fs.
Proof.
  intros Hp.
  assert (OD.keys (foldl (update fs) init_d items) = tools) as Hkeys.
  { rewrite foldl_update_keys; [apply keys_fmap_tools|].
    intros [k v] Hin. unfold init_d. rewrite keys_fmap_tools. simpl.
    apply tools_lookup. exists v. by apply (items_lookup items). }
  apply od_ext.
  - by rewrite Hkeys, final_results_keys.
  - rewrite Hkeys. apply tools_NoDup.
  - rewrite Hkeys. intros k Hk.
    rewrite final_results_get by done.
    pose proof Hk as [v Hv]%tools_lookup.
    rewrite (foldl_update_get fs items k v).
    + unfold value_of. rewrite Hv.
      destruct (scraped fs v); [done|].
      by apply (getitem_fmap_tools (λ _, NA)).
    + by apply items_NoDup.
    + by apply (items_lookup items).
Qed.

Lemma all_present_items (items : list (string * (string * Re.regex)))
    (fs : gmap string string) :
  items ≡ₚ map_to_list regexes → all_present fs →
  ∀ kv, kv ∈ items → is_Some (fs !! kv.2.1).
Proof.
  intros Hp Hall [k v] Hin. apply (Hall k v). by apply (items_lookup items).
Qed.

Lemma extraction_complete (items : list (string * (string * Re.regex)))
    (fs : gmap string string) :
  items ≡ₚ map_to_list regexes → all_present fs →
  extraction items (start fs) =
  (Ok tt, State fs "" (final_results fs) (init_j ++ omap (assignment fs) items)).
Proof.
  intros Hp Hall. rewrite extraction_run.
  destruct (processed_all fs items (all_present_items items fs Hp Hall)) as [-> ->].
  by rewrite foldl_final.
Qed.

(** ** The rest of the script *)

Lemma script_split (items : list (string * (string * Re.regex))) (st : state) :
  script items st =
  bind (extraction items) (λ _, remove_falsy ;;; dump_yaml ;;; write_csv) st.
Proof. unfold script, extraction. by rewrite bind_assoc. Qed.

Lemma remove_falsy_noop (st : state) :
  (∀ k, k ∈ OD.keys (results st) →
        ∃ v, OD.getitem k (results st) = Some v ∧ falsy v = false) →
  remove_falsy st = (Ok tt, st).
Proof.
  intros Hall. unfold remove_falsy, bind, results_read.
  by apply remove_loop_noop.
Qed.

Lemma dump_yaml_run (st : state) :
  dump_yaml st =
  (Ok tt, State (files st) (stdout st +:+ report (results st))
            (results st) (journal st)).
Proof.
  unfold dump_yaml, bind, print at 1, results_read. simpl.
  rewrite print_loop. simpl. unfold print, report, OD.items. simpl.
  by rewrite !app_assoc_str.
Qed.

Lemma write_csv_run (st : state) :
  write_csv st =
  (Ok tt, State (<[csv_name := csv_text (results st)]> (files st))
            (stdout st) (results st) (journal st)).
Proof.
  unfold write_csv, bind, open_w, results_read. simpl.
  rewrite (write_loop csv_line csv_name _ _ ""); simpl.
  - by rewrite insert_insert_eq.
  - apply lookup_insert_eq.
Qed.

Lemma final_results_truthy (fs : gmap string string) (k : string) :
  k ∈ OD.keys (final_results fs) →
  ∃ v, OD.getitem k (final_results fs) = Some v ∧ falsy v = false.
Proof.
  rewrite final_results_keys. intros Hk. exists (value_of fs k).
  split; [by apply final_results_get|apply value_of_truthy].
Qed.

(** The run when every file is there, in one equation. *)
Lemma run_complete (items : list (string * (string * Re.regex)))
    (fs : gmap string string) :
  items ≡ₚ map_to_list regexes → all_present fs →
  run items fs =
  (Ok tt,
   State (<[csv_name := csv_text (final_results fs)]> fs)
         (report (final_results fs))
         (final_results fs)
         (init_j ++ omap (assignment fs) items)).
Proof.
  intros Hp Hall. unfold run. rewrite script_split.
  rewrite (bind_ok _ _ _ _ _ (extraction_complete items fs Hp Hall)).
  rewrite (bind_ok _ _ _ (State fs "" (final_results fs) (init_j ++ omap (assignment fs) items)) tt).
  - rewrite (bind_ok _ _ _ _ _ (dump_yaml_run _)).
    rewrite write_csv_run. reflexivity.
  - apply remove_falsy_noop. simpl. apply final_results_truthy.
Qed.

(** The run when a file is missing: it stops in the loop. *)
Lemma run_missing (items : list (string * (string * Re.regex)))
    (fs : gmap string string) :
  (∃ kv, kv ∈ items ∧ fs !! kv.2.1 = None) →
  ∃ kv, kv ∈ items ∧ fs !! kv.2.1 = None ∧
    run items fs =
    (Raise (FileNotFoundError kv.2.1),
     State fs ""
       (foldl (update fs) init_d (processed fs items))
       (init_j ++ omap (assignment fs) (processed fs items))).
Proof.
  intros Hmiss. destruct (loop_outcome_missing fs items Hmiss) as (kv & Hin & Hn & Ho).
  exists kv. split; [done|]. split; [done|].
  unfold run. rewrite script_split.
  apply bind_raise. by rewrite extraction_run, Ho.
Qed.

(** ** More on the loop and on the values *)

Lemma loop_outcome_cases (fs : gmap string string)
    (items : list (string * (string * Re.regex))) :
  (loop_outcome fs items = Ok tt ∧ processed fs items = items ∧
   ∀ kv, kv ∈ items → is_Some (fs !! kv.2.1)) ∨
  (∃ kv, kv ∈ items ∧ fs !! kv.2.1 = None ∧
         loop_outcome fs items = Raise (FileNotFoundError kv.2.1)).
Proof.
  induction items as [|kv items IH]; simpl.
  - left. repeat split. by intros kv ?%elem_of_nil.
  - destruct (fs !! kv.2.1) as [text|] eqn:Hf.
    + destruct IH as [(-> & -> & Hall)|(kv' & Hin & Hn & ->)].
      * left. repeat split. intros kv' [->|Hin]%elem_of_cons; [by eexists|by apply Hall].
      * right. exists kv'. split; [by apply list_elem_of_further|done].
    + right. exists kv. split; [apply list_elem_of_here|done].
Qed.

Lemma all_present_iff (items : list (string * (string * Re.regex)))
    (fs : gmap string string) :
  items ≡ₚ map_to_list regexes →
  all_present fs ↔ ∀ kv, kv ∈ items → is_Some (fs !! kv.2.1).
Proof.
  intros Hp. split; [by apply all_present_items|].
  intros Hall k v Hv. apply (Hall (k, v)). by apply (items_lookup items).
Qed.

Lemma all_present_inputs (fs : gmap string string) :
  all_present fs ↔ ∀ file, file ∈ inputs → is_Some (fs !! file).
Proof.
  split.
  - intros Hall file ((k & v) & -> & Hin)%list_elem_of_fmap.
    apply (Hall k v). apply elem_of_list_to_map; [|done].
    rewrite regexes_src_keys. apply tools_NoDup.
  - intros Hall k v Hv. by apply Hall, (regexes_input k).
Qed.

Lemma writes_app (k : string) (j j' : list event) :
  writes k (j ++ j') = writes k j + writes k j'.
Proof.
  induction j as [|[k' v|k'] j IH]; simpl; [done| |done].
  rewrite IH. lia.
Qed.


Lemma omap_assignment_cons (fs : gmap string string)
    (kv : string * (string * Re.regex)) (items : list (string * (string * Re.regex))) :
  omap (assignment fs) (kv :: items) =
  option_list (assignment fs kv) ++ omap (assignment fs) items.
Proof. simpl. by destruct (assignment fs kv). Qed.

Lemma assignment_writes_ne (fs : gmap string string)
    (kv : string * (string * Re.regex)) (k : string) :
  kv.1 ≠ k → writes k (option_list (assignment fs kv)) = 0.
Proof.
  intros Hne. unfold assignment. destruct (scraped fs kv.2) as [x|]; simpl; [|done].
  apply String.eqb_neq in Hne. by rewrite Hne.
Qed.

Lemma assignment_writes_le (fs : gmap string string)
    (kv : string * (string * Re.regex)) (k : string) :
  writes k (option_list (assignment fs kv)) ≤ 1.
Proof.
  unfold assignment. destruct (scraped fs kv.2) as [x|]; simpl; [|lia].
  destruct (String.eqb kv.1 k); lia.
Qed.

Lemma assignment_writes_absent (fs : gmap string string)
    (items : list (string * (string * Re.regex))) (k : string) :
  k ∉ items.*1 → writes k (omap (assignment fs) items) = 0.
Proof.
  induction items as [|kv items IH]; [done|].
  intros [Hne Hnin]%not_elem_of_cons.
  rewrite omap_assignment_cons, writes_app, IH by done.
  rewrite assignment_writes_ne; [done|]. by apply not_eq_sym.
Qed.

(** The loop assigns to each key at most once. *)
Lemma assignment_writes (fs : gmap string string)
    (items : list (string * (string * Re.regex))) (k : string) :
  NoDup items.*1 → writes k (omap (assignment fs) items) ≤ 1.
Proof.
  induction items as [|kv items IH]; [simpl; lia|].
  intros [Hnin Hnd]%NoDup_cons. specialize (IH Hnd).
  rewrite omap_assignment_cons, writes_app.
  destruct (decide (kv.1 = k)) as [<-|Hne].
  - rewrite assignment_writes_absent by done.
    pose proof (assignment_writes_le fs kv kv.1). lia.
  - rewrite assignment_writes_ne by done. lia.
Qed.


Lemma writes_init (k : string) : k ∈ tools → writes k init_j = 1.
Proof.
  intros Hk. unfold tools in Hk.
  repeat (apply elem_of_cons in Hk as [->|Hk]; [reflexivity|]).
  by apply elem_of_nil in Hk.
Qed.

Lemma sublist_NoDup_fst (l l' : list (string * (string * Re.regex))) :
  sublist l l' → NoDup l'.*1 → NoDup l.*1.
Proof.
  intros Hs Hnd. eapply sublist_NoDup; [done|]. by apply fmap_sublist.
Qed.

(** *** What a match of a table pattern looks like *)

Lemma version_here_Some (p : string) (pos : nat) (s : string) (m : Re.match_obj) :
  version_here p pos s = Some m →
  ∃ g rest,
    s = p +:+ g +:+ rest ∧ g ≠ "" ∧ all_nonspace g = true ∧
    match rest with EmptyString => True | String c _ => Re.isspace c = true end ∧
    m = Re.MatchObj pos (p +:+ g) [(1, g)].
Proof.
  unfold version_here. destruct (strip_prefix p s) as [t|] eqn:Hp; [|done].
  apply strip_prefix_Some in Hp as ->.
  destruct (falsy (nonspace_run t)) eqn:Hf; [done|]. intros [= <-].
  exists (nonspace_run t), (Re.drop (String.length (nonspace_run t)) t).
  split; [by rewrite <- nonspace_run_split|].
  split; [intros Heq; by rewrite Heq in Hf|].
  split; [apply nonspace_run_all|].
  split; [apply nonspace_run_stop|done].
Qed.

Lemma version_here_is_Some (p : string) (pos : nat) (c : ascii) (rest : string) :
  Re.isspace c = false → is_Some (version_here p pos (p +:+ String c rest)).
Proof.
  intros Hc. unfold version_here.
  assert (strip_prefix p (p +:+ String c rest) = Some (String c rest)) as ->.
  { by apply strip_prefix_Some. }
  simpl. rewrite Hc. simpl. by eexists.
Qed.

(** In words: a table pattern matches somewhere in the text exactly when
    its ordinary characters occur there, followed by a character that is
    not white space. *)
Lemma has_match_pattern (p text : string) :
  has_match (pattern p) text ↔
  ∃ pre c rest, text = pre +:+ p +:+ String c rest ∧ Re.isspace c = false.
Proof.
  split.
  - intros (pos & Hpos & [m Hm]). rewrite match_here_pattern in Hm.
    apply version_here_Some in Hm as (g & rest & Hs & Hg & Hall & _ & _).
    destruct g as [|c g]; [done|]. simpl in Hall.
    apply andb_true_iff in Hall as [Hc%negb_true_iff _].
    exists (Re.take pos text), c, (g +:+ rest). split; [|done].
    rewrite <- str_app_cons, <- Hs. by rewrite take_drop_str.
  - intros (pre & c & rest & -> & Hc). exists (String.length pre).
    split; [rewrite length_app_str; lia|].
    rewrite drop_app_length, match_here_pattern.
    by apply version_here_is_Some.
Qed.

Lemma pattern_group (p text : string) (m : Re.match_obj) :
  Re.search (pattern p) text = Some m →
  ∃ g, Re.group 1 m = Some g ∧ g ≠ "" ∧ all_nonspace g = true ∧
       Re.m_text m = p +:+ g ∧
       ∃ rest, Re.drop (Re.m_start m) text = p +:+ g +:+ rest ∧
               match rest with EmptyString => True | String c _ => Re.isspace c = true end.
Proof.
  intros (_ & Hm & _)%search_first_match.
  rewrite match_here_pattern in Hm.
  apply version_here_Some in Hm as (g & rest & Hs & Hg & Hall & Hrest & Hmeq).
  exists g. rewrite Hmeq in Hs |- *. simpl in *. repeat split; try done.
  by exists rest.
Qed.

Lemma value_of_lookup (fs : gmap string string) (k file : string)
    (r : Re.regex) (text : string) :
  regexes !! k = Some (file, r) → fs !! file = Some text →
  value_of fs k =
  match Re.search r text with
  | Some m => "v" +:+ format_group (Re.group 1 m)
  | None => NA
  end.
Proof.
  intros Hk Hf. unfold value_of, scraped. rewrite Hk. simpl. rewrite Hf.
  by destruct (Re.search r text).
Qed.

(** The values depend on the directory through the six files only. *)
Lemma value_of_agree (fs fs' : gmap string string) (k : string) :
  (∀ file, file ∈ inputs → fs !! file = fs' !! file) →
  value_of fs k = value_of fs' k.
Proof.
  intros Hag. unfold value_of. destruct (regexes !! k) as [v|] eqn:Hv; [|done].
  unfold scraped. by rewrite (Hag v.1 (regexes_input k v Hv)).
Qed.

Lemma final_results_agree (fs fs' : gmap string string) :
  (∀ file, file ∈ inputs → fs !! file = fs' !! file) →
  final_results fs = final_results fs'.
Proof.
  intros Hag. unfold final_results. apply list_fmap_ext.
  intros i k _. f_equal. by apply value_of_agree.
Qed.

(** Every run ends in one of two ways. *)
Lemma run_cases (items : list (string * (string * Re.regex)))
    (fs : gmap string string) :
  items ≡ₚ map_to_list regexes →
  (all_present fs ∧
   run items fs =
   (Ok tt,
    State (<[csv_name := csv_text (final_results fs)]> fs)
          (report (final_results fs)) (final_results fs)
          (init_j ++ omap (assignment fs) items))) ∨
  (∃ kv, kv ∈ items ∧ fs !! kv.2.1 = None ∧
     run items fs =
     (Raise (FileNotFoundError kv.2.1),
      State fs ""
        (foldl (update fs) init_d (processed fs items))
        (init_j ++ omap (assignment fs) (processed fs items)))).
Proof.
  intros Hp. destruct (loop_outcome_cases fs items) as [(_ & _ & Hall)|(kv & Hin & Hn & _)].
  - left. apply (all_present_iff items fs Hp) in Hall.
    split; [done|]. by apply run_complete.
  - right. apply run_missing. by exists kv.
Qed.

(** *** Counting characters, to count lines *)

Lemma count_char_app (c : ascii) (s t : string) :
  count_char c (s +:+ t) = count_char c s + count_char c t.
Proof.
  induction s as [|a s IH]; [done|].
  rewrite str_app_cons. simpl. rewrite IH. lia.
Qed.

Lemma count_char_nonspace (c : ascii) (g : string) :
  Re.isspace c = true → all_nonspace g = true → count_char c g = 0.
Proof.
  intros Hc. induction g as [|a g IH]; simpl; [done|].
  intros [Ha%negb_true_iff Hg]%andb_true_iff.
  rewrite IH by done.
  destruct (Ascii.eqb_spec a c) as [->|Hne]; [congruence|done].
Qed.

Lemma scraped_nonspace (fs : gmap string string) (k : string)
    (v : string * Re.regex) (x : string) :
  regexes !! k = Some v → scraped fs v = Some x →
  ∃ g, x = "v" +:+ g ∧ g ≠ "" ∧ all_nonspace g = true.
Proof.
  intros [p Hp]%regexes_pattern. unfold scraped.
  destruct (fs !! v.1) as [text|]; [|done].
  rewrite Hp. destruct (Re.search (pattern p) text) as [m|] eqn:Hm; [|done].
  apply pattern_group in Hm as (g & -> & Hg & Hall & _).
  intros [= <-]. by exists g.
Qed.

(** A value holds no tab and no newline. *)
Lemma value_of_one_line (fs : gmap string string) (k : string) (c : ascii) :
  c = nl ∨ c = tab → count_char c (value_of fs k) = 0.
Proof.
  intros Hc. unfold value_of. destruct (regexes !! k) as [v|] eqn:Hv.
  - destruct (scraped fs v) as [x|] eqn:Hx; simpl.
    + destruct (scraped_nonspace fs k v x Hv Hx) as (g & -> & _ & Hall).
      rewrite count_char_app, (count_char_nonspace c g); [|by destruct Hc as [->| ->]|done].
      by destruct Hc as [->| ->].
    + by destruct Hc as [->| ->].
  - by destruct Hc as [->| ->].
Qed.

Lemma csv_line_newlines (fs : gmap string string) (k : string) :
  k ∈ tools → count_char nl (csv_line (k, value_of fs k)) = 1.
Proof.
  intros Hk. unfold csv_line. simpl.
  rewrite !count_char_app, (value_of_one_line fs k nl) by (by left).
  unfold tools in Hk.
  repeat (apply elem_of_cons in Hk as [->|Hk]; [reflexivity|]).
  by apply elem_of_nil in Hk.
Qed.

Lemma csv_line_tabs (fs : gmap string string) (k : string) :
  k ∈ tools → count_char tab (csv_line (k, value_of fs k)) = 1.
Proof.
  intros Hk. unfold csv_line. simpl.
  rewrite !count_char_app, (value_of_one_line fs k tab) by (by right).
  unfold tools in Hk.
  repeat (apply elem_of_cons in Hk as [->|Hk]; [reflexivity|]).
  by apply elem_of_nil in Hk.
Qed.

Lemma csv_text_count (fs : gmap string string) (c : ascii) (l : list string) :
  (∀ k, k ∈ l → count_char c (csv_line (k, value_of fs k)) = 1) →
  count_char c (csv_text ((λ k, (k, value_of fs k)) <$> l)) = length l.
Proof.
  unfold csv_text. induction l as [|k l IH]; intros Hall; [done|].
  rewrite !fmap_cons. simpl. rewrite count_char_app.
  rewrite (Hall k (list_elem_of_here _ _)), IH; [done|].
  intros k' Hk'. apply Hall. by apply list_elem_of_further.
Qed.

Lemma assignment_writes_exact (fs : gmap string string)
    (items : list (string * (string * Re.regex))) (k : string) (v : string * Re.regex) :
  NoDup items.*1 → (k, v) ∈ items →
  writes k (omap (assignment fs) items) =
  match scraped fs v with Some _ => 1 | None => 0 end.
Proof.
  induction items as [|kv items IH]; [by intros _ ?%elem_of_nil|].
  intros [Hnin Hnd]%NoDup_cons Hin.
  rewrite omap_assignment_cons, writes_app.
  apply elem_of_cons in Hin as [<-|Hin].
  - rewrite assignment_writes_absent by done. unfold assignment. simpl.
    destruct (scraped fs v); simpl; [|done]. by rewrite String.eqb_refl.
  - rewrite IH by done. rewrite assignment_writes_ne; [done|].
    intros Heq. apply Hnin. apply list_elem_of_fmap. by exists (k, v).
Qed.

Lemma inputs_items (items : list (string * (string * Re.regex))) (file : string) :
  items ≡ₚ map_to_list regexes → file ∈ inputs →
  ∃ kv, kv ∈ items ∧ kv.2.1 = file.
Proof.
  intros Hp%items_src ((k & v) & -> & Hin)%list_elem_of_fmap.
  exists (k, v). by rewrite Hp.
Qed.

Lemma items_inputs (items : list (string * (string * Re.regex)))
    (kv : string * (string * Re.regex)) :
  items ≡ₚ map_to_list regexes → kv ∈ items → kv.2.1 ∈ inputs.
Proof.
  intros Hp Hin. destruct kv as [k v]. apply (regexes_input k).
  by apply (items_lookup items).
Qed.

Lemma src_order : regexes_src ≡ₚ map_to_list regexes.
Proof. symmetry. apply map_to_list_to_map. rewrite regexes_src_keys. apply tools_NoDup. Qed.

Lemma reverse_order : reverse regexes_src ≡ₚ map_to_list regexes.
Proof. rewrite reverse_Permutation. apply src_order. Qed.

(** ** Properties of the script *)

(** C1. A tool whose file holds a match of its pattern gets ["v"] followed
    by group 1 of the leftmost match: the value after the extraction pass,
    and the one the finished run still holds. *)
Theorem match_sets_version (items : list (string * (string * Re.regex)))
    (fs : gmap string string) (k file : string) (pat : Re.regex) (text : string) :
  items ≡ₚ map_to_list regexes → all_present fs →
  regexes !! k = Some (file, pat) → fs !! file = Some text →
  has_match pat text →
  ∃ st m g,
    extraction items (start fs) = (Ok tt, st) ∧
    Re.search pat text = Some m ∧ first_match pat text m ∧
    Re.group 1 m = Some g ∧
    OD.getitem k (results st) = Some ("v" +:+ g) ∧
    OD.getitem k (results (run items fs).2) = Some ("v" +:+ g).
Proof.
  intros Hp Hall Hk Hf Hm.
  apply has_match_search in Hm as [m Hm].
  destruct (regexes_pattern _ _ Hk) as [p Hpat]. simpl in Hpat. subst pat.
  destruct (pattern_group _ _ _ Hm) as (g & Hg & _).
  assert (OD.getitem k (final_results fs) = Some ("v" +:+ g)) as Hget.
  { rewrite final_results_get by (apply tools_lookup; by eexists).
    by rewrite (value_of_lookup fs k file _ text Hk Hf), Hm, Hg. }
  exists (State fs "" (final_results fs) (init_j ++ omap (assignment fs) items)), m, g.
  split; [by apply extraction_complete|].
  split; [done|]. split; [by apply search_first_match|]. split; [done|].
  split; [done|]. by rewrite run_complete.
Qed.

(** C2. A tool whose file holds no match keeps the placeholder it was
    given on lines 16-21, and is never assigned again. *)
Theorem no_match_keeps_placeholder (items : list (string * (string * Re.regex)))
    (fs : gmap string string) (k file : string) (pat : Re.regex) (text : string) :
  items ≡ₚ map_to_list regexes → all_present fs →
  regexes !! k = Some (file, pat) → fs !! file = Some text →
  ¬ has_match pat text →
  ∃ st0 st,
    init_results (start fs) = (Ok tt, st0) ∧
    extraction items (start fs) = (Ok tt, st) ∧
    OD.getitem k (results st0) = Some NA ∧
    OD.getitem k (results st) = Some NA ∧
    writes k (journal st) = 1 ∧
    NA = py_literal NA_source ∧
    NA = "<span style=" +:+ chr dq +:+ "color:#999999;" +:+ chr dq +:+ ">N/A</span>".
Proof.
  intros Hp Hall Hk Hf Hm.
  assert (Re.search pat text = None) as Hs.
  { destruct (Re.search pat text) as [m|] eqn:E; [|done].
    destruct Hm. apply has_match_search. by eexists. }
  assert (k ∈ tools) as Hkt by (apply tools_lookup; by eexists).
  exists (State fs "" init_d init_j),
         (State fs "" (final_results fs) (init_j ++ omap (assignment fs) items)).
  split; [apply init_results_run|].
  split; [by apply extraction_complete|].
  split; [by apply (getitem_fmap_tools (λ _, NA))|].
  split.
  { cbn [results]. rewrite final_results_get by done.
    by rewrite (value_of_lookup fs k file pat text Hk Hf), Hs. }
  split; [|done].
  cbn [journal]. rewrite writes_app, writes_init by done.
  rewrite (assignment_writes_exact fs items k (file, pat)).
  - unfold scraped. cbn [fst snd]. by rewrite Hf, Hs.
  - by apply items_NoDup.
  - by apply (items_lookup items).
Qed.

(** C3. When one of the six files is missing the run ends in
    [FileNotFoundError] for a missing file of the table, with nothing
    printed and no file written. *)
Theorem missing_file_raises (items : list (string * (string * Re.regex)))
    (fs : gmap string string) (file : string) :
  items ≡ₚ map_to_list regexes →
  file ∈ inputs → fs !! file = None →
  ∃ missing st,
    run items fs = (Raise (FileNotFoundError missing), st) ∧
    missing ∈ inputs ∧ fs !! missing = None ∧
    stdout st = "" ∧ files st = fs.
Proof.
  intros Hp Hin Hnone.
  destruct (inputs_items items file Hp Hin) as (kv & Hkv & Hfile).
  destruct (run_missing items fs) as (kv' & Hin' & Hn' & Hrun).
  { exists kv. by rewrite Hfile. }
  eexists _, _. split; [apply Hrun|].
  split; [by apply (items_inputs items)|]. done.
Qed.

(** C4. In any order of the loop over the table, the entries of the
    mapping, the [<dt>] lines on stdout and the lines of the csv file come
    in the order of lines 16-21; both texts are written out in full, with
    [v k] for the value of tool [k]. *)
Theorem output_order (items : list (string * (string * Re.regex)))
    (fs : gmap string string) :
  items ≡ₚ map_to_list regexes → all_present fs →
  let v := value_of fs in
  ∃ st,
    run items fs = (Ok tt, st) ∧
    OD.keys (results st) =
      ["nf-core/hlatyping"; "Nextflow"; "Samtools"; "Yara"; "Optitype"; "MultiQC"] ∧
    results st = (λ k, (k, v k)) <$> OD.keys (results st) ∧
    stdout st =
      chr nl +:+
      "id: 'software_versions'" +:+ chr nl +:+
      "section_name: 'nf-core/hlatyping Software Versions'" +:+ chr nl +:+
      "section_href: 'https://github.com/nf-core/hlatyping'" +:+ chr nl +:+
      "plot_type: 'html'" +:+ chr nl +:+
      "description: 'are collected at run time from the software output.'" +:+ chr nl +:+
      "data: |" +:+ chr nl +:+
      "    <dl class=" +:+ chr dq +:+ "dl-horizontal" +:+ chr dq +:+ ">" +:+ chr nl +:+
      chr nl +:+
      "        <dt>nf-core/hlatyping</dt><dd><samp>" +:+ v "nf-core/hlatyping" +:+ "</samp></dd>" +:+ chr nl +:+
      "        <dt>Nextflow</dt><dd><samp>" +:+ v "Nextflow" +:+ "</samp></dd>" +:+ chr nl +:+
      "        <dt>Samtools</dt><dd><samp>" +:+ v "Samtools" +:+ "</samp></dd>" +:+ chr nl +:+
      "        <dt>Yara</dt><dd><samp>" +:+ v "Yara" +:+ "</samp></dd>" +:+ chr nl +:+
      "        <dt>Optitype</dt><dd><samp>" +:+ v "Optitype" +:+ "</samp></dd>" +:+ chr nl +:+
      "        <dt>MultiQC</dt><dd><samp>" +:+ v "MultiQC" +:+ "</samp></dd>" +:+ chr nl +:+
      "    </dl>" +:+ chr nl ∧
    files st !! "software_versions.csv" =
      Some ("nf-core/hlatyping" +:+ chr tab +:+ v "nf-core/hlatyping" +:+ chr nl +:+
         "Nextflow" +:+ chr tab +:+ v "Nextflow" +:+ chr nl +:+
         "Samtools" +:+ chr tab +:+ v "Samtools" +:+ chr nl +:+
         "Yara" +:+ chr tab +:+ v "Yara" +:+ chr nl +:+
         "Optitype" +:+ chr tab +:+ v "Optitype" +:+ chr nl +:+
         "MultiQC" +:+ chr tab +:+ v "MultiQC" +:+ chr nl).
Proof.
  intros Hp Hall v. eexists. split; [by apply run_complete|].
  cbn [results stdout files].
  split; [apply final_results_keys|].
  split; [by rewrite final_results_keys|].
  split.
  - unfold report, final_results, tools, dt_dd.
    cbn [fmap list_fmap concat_str fst snd].
    rewrite !app_assoc_str. reflexivity.
  - rewrite lookup_insert_eq. f_equal.
    unfold csv_text, final_results, tools, csv_line.
    cbn [fmap list_fmap concat_str fst snd].
    rewrite !app_assoc_str, str_app_nil_r. reflexivity.
Qed.

(** C5. The csv file holds, for each entry in order, the tool, a tab, the
    value and a newline, and nothing else: as many newlines and as many
    tabs as entries. What the file held before does not matter, and no
    other file changes. *)
Theorem csv_contents (items : list (string * (string * Re.regex)))
    (fs : gmap string string) :
  items ≡ₚ map_to_list regexes → all_present fs →
  ∃ st text,
    run items fs = (Ok tt, st) ∧
    files st !! csv_name = Some text ∧
    text = concat_str ((λ kv, kv.1 +:+ chr tab +:+ kv.2 +:+ chr nl) <$> results st) ∧
    count_char nl text = length (results st) ∧
    count_char tab text = length (results st) ∧
    ∀ name, name ≠ csv_name → files st !! name = fs !! name.
Proof.
  intros Hp Hall. eexists _, _. split; [by apply run_complete|].
  cbn [results stdout files].
  split; [apply lookup_insert_eq|]. split; [done|].
  unfold final_results. rewrite length_fmap.
  split; [|split].
  - apply csv_text_count. intros k Hk. by apply csv_line_newlines.
  - apply csv_text_count. intros k Hk. by apply csv_line_tabs.
  - intros name Hne. by apply lookup_insert_ne.
Qed.


(** C7. What is printed: the YAML head with its six keys, an empty line,
    one [<dt>/<dd>] line for each entry of the mapping in its order, and the
    closing [</dl>]. *)
Theorem stdout_document (items : list (string * (string * Re.regex)))
    (fs : gmap string string) :
  items ≡ₚ map_to_list regexes → all_present fs →
  ∃ st,
    run items fs = (Ok tt, st) ∧
    OD.keys (results st) = tools ∧
    stdout st =
      chr nl +:+
      "id: 'software_versions'" +:+ chr nl +:+
      "section_name: 'nf-core/hlatyping Software Versions'" +:+ chr nl +:+
      "section_href: 'https://github.com/nf-core/hlatyping'" +:+ chr nl +:+
      "plot_type: 'html'" +:+ chr nl +:+
      "description: 'are collected at run time from the software output.'" +:+ chr nl +:+
      "data: |" +:+ chr nl +:+
      "    <dl class=" +:+ chr dq +:+ "dl-horizontal" +:+ chr dq +:+ ">" +:+ chr nl +:+
      chr nl +:+
      concat_str
        ((λ kv, "        <dt>" +:+ kv.1 +:+ "</dt><dd><samp>" +:+ kv.2 +:+
                "</samp></dd>" +:+ chr nl) <$> results st) +:+
      "    </dl>" +:+ chr nl.
Proof.
  intros Hp Hall. eexists. split; [by apply run_complete|].
  cbn [results stdout]. split; [apply final_results_keys|].
  unfold report.
  rewrite (list_fmap_ext (λ kv, dt_dd kv +:+ chr nl)
             (λ kv, "        <dt>" +:+ kv.1 +:+ "</dt><dd><samp>" +:+ kv.2 +:+
                    "</samp></dd>" +:+ chr nl) (final_results fs)).
  - reflexivity.
  - intros i kv _. unfold dt_dd. by rewrite !app_assoc_str.
Qed.

(** C8. One turn of the loop leaves every other key's value, the order of
    the keys, the files and stdout as they were; over a whole run each
    tool is assigned once on lines 16-21 and at most once afterwards. *)
Theorem scrape_touches_one_entry (items : list (string * (string * Re.regex)))
    (fs : gmap string string) (kv : string * (string * Re.regex)) (st : state)
    (k k' : string) :
  items ≡ₚ map_to_list regexes → k' ≠ kv.1 → k ∈ tools →
  OD.getitem k' (results (scrape kv st).2) = OD.getitem k' (results st) ∧
  (kv.1 ∈ OD.keys (results st) →
   OD.keys (results (scrape kv st).2) = OD.keys (results st)) ∧
  files (scrape kv st).2 = files st ∧
  stdout (scrape kv st).2 = stdout st ∧
  ∃ later,
    journal (run items fs).2 = init_j ++ later ∧
    writes k init_j = 1 ∧ writes k later ≤ 1.
Proof.
  intros Hp Hne Hk. destruct kv as [k1 [file r]].
  assert (∃ st', scrape (k1, (file, r)) st = st' ∧
            (st'.2 = st ∨
             st'.2 = State (files st) (stdout st)
                       (update (files st) (results st) (k1, (file, r)))
                       (journal st ++ option_list (assignment (files st) (k1, (file, r))))))
    as (st' & -> & Hst').
  { eexists. split; [done|]. destruct (files st !! file) as [text|] eqn:Hf.
    - right. by rewrite (scrape_present k1 file r st text Hf).
    - left. by rewrite (scrape_absent k1 file r st Hf). }
  split; [|split; [|split; [|split]]].
  - destruct Hst' as [->| ->]; [done|]. cbn [results]. by apply update_get_ne.
  - intros Hin. destruct Hst' as [->| ->]; [done|]. cbn [results]. by apply update_keys.
  - by destruct Hst' as [->| ->].
  - by destruct Hst' as [->| ->].
  - destruct (run_cases items fs Hp) as [(_ & ->)|(kv & _ & _ & ->)]; cbn [journal snd].
    + eexists. split; [done|]. split; [by apply writes_init|].
      by apply assignment_writes, items_NoDup.
    + eexists. split; [done|]. split; [by apply writes_init|].
      apply assignment_writes.
      eapply sublist_NoDup_fst; [apply processed_sublist|by apply items_NoDup].
Qed.

(** C9. With ["samtools 1.9\n"] in [v_samtools.txt] and no match in the
    other five files, Samtools is [v1.9] and the others are the placeholder
    [na], in the mapping, on stdout and in the csv file; both texts are
    written out in full. *)
Theorem samtools_example (items : list (string * (string * Re.regex)))
    (fs : gmap string string) :
  items ≡ₚ map_to_list regexes → all_present fs →
  fs !! "v_samtools.txt" = Some ("samtools 1.9" +:+ chr nl) →
  (∀ k file pat text,
     k ≠ "Samtools" → regexes !! k = Some (file, pat) → fs !! file = Some text →
     ¬ has_match pat text) →
  let na :=
    "<span style=" +:+ chr dq +:+ "color:#999999;" +:+ chr dq +:+ ">N/A</span>" in
  ∃ st,
    run items fs = (Ok tt, st) ∧
    results st =
      [("nf-core/hlatyping", na); ("Nextflow", na); ("Samtools", "v1.9");
       ("Yara", na); ("Optitype", na); ("MultiQC", na)] ∧
    stdout st =
      chr nl +:+
      "id: 'software_versions'" +:+ chr nl +:+
      "section_name: 'nf-core/hlatyping Software Versions'" +:+ chr nl +:+
      "section_href: 'https://github.com/nf-core/hlatyping'" +:+ chr nl +:+
      "plot_type: 'html'" +:+ chr nl +:+
      "description: 'are collected at run time from the software output.'" +:+ chr nl +:+
      "data: |" +:+ chr nl +:+
      "    <dl class=" +:+ chr dq +:+ "dl-horizontal" +:+ chr dq +:+ ">" +:+ chr nl +:+
      chr nl +:+
      "        <dt>nf-core/hlatyping</dt><dd><samp>" +:+ na +:+ "</samp></dd>" +:+ chr nl +:+
      "        <dt>Nextflow</dt><dd><samp>" +:+ na +:+ "</samp></dd>" +:+ chr nl +:+
      "        <dt>Samtools</dt><dd><samp>" +:+ "v1.9" +:+ "</samp></dd>" +:+ chr nl +:+
      "        <dt>Yara</dt><dd><samp>" +:+ na +:+ "</samp></dd>" +:+ chr nl +:+
      "        <dt>Optitype</dt><dd><samp>" +:+ na +:+ "</samp></dd>" +:+ chr nl +:+
      "        <dt>MultiQC</dt><dd><samp>" +:+ na +:+ "</samp></dd>" +:+ chr nl +:+
      "    </dl>" +:+ chr nl ∧
    files st !! "software_versions.csv" =
      Some ("nf-core/hlatyping" +:+ chr tab +:+ na +:+ chr nl +:+
         "Nextflow" +:+ chr tab +:+ na +:+ chr nl +:+
         "Samtools" +:+ chr tab +:+ "v1.9" +:+ chr nl +:+
         "Yara" +:+ chr tab +:+ na +:+ chr nl +:+
         "Optitype" +:+ chr tab +:+ na +:+ chr nl +:+
         "MultiQC" +:+ chr tab +:+ na +:+ chr nl).
Proof.
  intros Hp Hall Hsam Hothers na. eexists. split; [by apply run_complete|].
  cbn [results stdout files].
  assert (∀ k file pat, k ≠ "Samtools" → regexes !! k = Some (file, pat) →
            value_of fs k = NA) as Hna.
  { intros k file pat Hk Hreg. destruct (Hall k _ Hreg) as [text Htext].
    rewrite (value_of_lookup fs k file pat text Hreg Htext).
    destruct (Re.search pat text) as [m|] eqn:E; [|done].
    destruct (Hothers k file pat text Hk Hreg Htext).
    apply has_match_search. by eexists. }
  assert (final_results fs =
            [("nf-core/hlatyping", na); ("Nextflow", na); ("Samtools", "v1.9");
             ("Yara", na); ("Optitype", na); ("MultiQC", na)]) as ->.
  { unfold final_results, tools. rewrite !fmap_cons, fmap_nil.
    rewrite (Hna "nf-core/hlatyping" "v_pipeline.txt" (pattern "")) by done.
    rewrite (Hna "Nextflow" "v_nextflow.txt" (pattern "")) by done.
    rewrite (Hna "Yara" "v_yara.txt" (pattern "yara_mapper version: ")) by done.
    rewrite (Hna "Optitype" "v_optitype.txt" (pattern "Version: ")) by done.
    rewrite (Hna "MultiQC" "v_multiqc.txt" (pattern "multiqc, version ")) by done.
    rewrite (value_of_lookup fs "Samtools" "v_samtools.txt" (pattern "samtools ")
               ("samtools 1.9" +:+ chr nl)) by done.
    reflexivity. }
  split; [done|]. split; [reflexivity|].
  rewrite lookup_insert_eq. reflexivity.
Qed.

(** C10. Two runs that find the same contents in the six files, whatever
    the order of their loops and whatever else their directories hold,
    print the same text, and either both write the same csv text or both
    stop in the loop having written nothing. *)
Theorem run_deterministic (items1 items2 : list (string * (string * Re.regex)))
    (fs1 fs2 : gmap string string) :
  items1 ≡ₚ map_to_list regexes → items2 ≡ₚ map_to_list regexes →
  (∀ file, file ∈ inputs → fs1 !! file = fs2 !! file) →
  stdout (run items1 fs1).2 = stdout (run items2 fs2).2 ∧
  (((run items1 fs1).1 = Ok tt ∧ (run items2 fs2).1 = Ok tt ∧
    ∃ text, files (run items1 fs1).2 !! csv_name = Some text ∧
            files (run items2 fs2).2 !! csv_name = Some text) ∨
   (∃ file1 file2,
      (run items1 fs1).1 = Raise (FileNotFoundError file1) ∧
      (run items2 fs2).1 = Raise (FileNotFoundError file2) ∧
      files (run items1 fs1).2 = fs1 ∧ files (run items2 fs2).2 = fs2)).
Proof.
  intros Hp1 Hp2 Hag.
  destruct (run_cases items1 fs1 Hp1) as [(Hall1 & ->)|(kv1 & Hin1 & Hn1 & ->)];
    destruct (run_cases items2 fs2 Hp2) as [(Hall2 & ->)|(kv2 & Hin2 & Hn2 & ->)];
    cbn [fst snd stdout files].
  - rewrite (final_results_agree fs1 fs2 Hag). split; [done|]. left.
    split; [done|]. split; [done|]. eexists.
    split; apply lookup_insert_eq.
  - exfalso.
    pose proof (items_inputs items2 kv2 Hp2 Hin2) as Hfile.
    destruct (proj1 (all_present_inputs fs1) Hall1 _ Hfile) as [text Htext].
    rewrite (Hag _ Hfile) in Htext. congruence.
  - exfalso.
    pose proof (items_inputs items1 kv1 Hp1 Hin1) as Hfile.
    destruct (proj1 (all_present_inputs fs2) Hall2 _ Hfile) as [text Htext].
    rewrite <- (Hag _ Hfile) in Htext. congruence.
  - split; [done|]. right. by eexists _, _.
Qed.

(** ** The theorems at concrete directories *)

Lemma regexes_cases (k : string) (v : string * Re.regex) :
  regexes !! k = Some v → (k, v) ∈ regexes_src.
Proof.
  intros Hv. apply elem_of_list_to_map in Hv; [done|].
  rewrite regexes_src_keys. apply tools_NoDup.
Qed.

Lemma fs_example_present : all_present fs_example.
Proof.
  intros k v Hv%regexes_cases. unfold regexes_src in Hv.
  repeat (apply elem_of_cons in Hv as [[= -> ->]|Hv]; [by eexists|]).
  by apply elem_of_nil in Hv.
Qed.

Lemma fs_samtools_present : all_present fs_samtools.
Proof.
  intros k v Hv%regexes_cases. unfold regexes_src in Hv.
  repeat (apply elem_of_cons in Hv as [[= -> ->]|Hv]; [by eexists|]).
  by apply elem_of_nil in Hv.
Qed.

Lemma no_match_by_search (r : Re.regex) (text : string) :
  Re.search r text = None → ¬ has_match r text.
Proof. intros Hs [m Hm]%has_match_search. congruence. Qed.

Lemma fs_samtools_others (k file : string) (pat : Re.regex) (text : string) :
  k ≠ "Samtools" → regexes !! k = Some (file, pat) →
  fs_samtools !! file = Some text → ¬ has_match pat text.
Proof.
  intros Hk Hv%regexes_cases Hf. unfold regexes_src in Hv.
  repeat (apply elem_of_cons in Hv as [[= -> -> ->]|Hv];
          [try done; vm_compute in Hf; injection Hf as <-;
           apply no_match_by_search; by vm_compute|]).
  by apply elem_of_nil in Hv.
Qed.

Lemma match_sets_version_witness :
  ∃ st m g,
    extraction regexes_src (start fs_example) = (Ok tt, st) ∧
    Re.search (pattern "samtools ") ("samtools 1.9" +:+ chr nl) = Some m ∧
    first_match (pattern "samtools ") ("samtools 1.9" +:+ chr nl) m ∧
    Re.group 1 m = Some g ∧
    OD.getitem "Samtools" (results st) = Some ("v" +:+ g) ∧
    OD.getitem "Samtools" (results (run regexes_src fs_example).2) = Some ("v" +:+ g).
Proof.
  apply (match_sets_version regexes_src fs_example "Samtools" "v_samtools.txt"
           (pattern "samtools ") ("samtools 1.9" +:+ chr nl)).
  - apply src_order.
  - apply fs_example_present.
  - reflexivity.
  - reflexivity.
  - exists 0. split; [simpl; lia|]. vm_compute. by eexists.
Defined.

Lemma no_match_keeps_placeholder_witness :
  ∃ st0 st,
    init_results (start fs_example) = (Ok tt, st0) ∧
    extraction (reverse regexes_src) (start fs_example) = (Ok tt, st) ∧
    OD.getitem "Yara" (results st0) = Some NA ∧
    OD.getitem "Yara" (results st) = Some NA ∧
    writes "Yara" (journal st) = 1 ∧
    NA = py_literal NA_source ∧
    NA = "<span style=" +:+ chr dq +:+ "color:#999999;" +:+ chr dq +:+ ">N/A</span>".
Proof.
  apply (no_match_keeps_placeholder (reverse regexes_src) fs_example "Yara" "v_yara.txt"
           (pattern "yara_mapper version: ") "").
  - apply reverse_order.
  - apply fs_example_present.
  - reflexivity.
  - reflexivity.
  - apply no_match_by_search. reflexivity.
Defined.

Lemma missing_file_raises_witness :
  ∃ missing st,
    run regexes_src fs_no_yara = (Raise (FileNotFoundError missing), st) ∧
    missing ∈ inputs ∧ fs_no_yara !! missing = None ∧
    stdout st = "" ∧ files st = fs_no_yara.
Proof.
  apply (missing_file_raises regexes_src fs_no_yara "v_yara.txt").
  - apply src_order.
  - unfold inputs. simpl. do 3 apply list_elem_of_further. apply list_elem_of_here.
  - reflexivity.
Defined.

Lemma output_order_witness :
  let v := value_of fs_example in
  ∃ st,
    run (reverse regexes_src) fs_example = (Ok tt, st) ∧
    OD.keys (results st) =
      ["nf-core/hlatyping"; "Nextflow"; "Samtools"; "Yara"; "Optitype"; "MultiQC"] ∧
    results st = (λ k, (k, v k)) <$> OD.keys (results st) ∧
    stdout st =
      chr nl +:+
      "id: 'software_versions'" +:+ chr nl +:+
      "section_name: 'nf-core/hlatyping Software Versions'" +:+ chr nl +:+
      "section_href: 'https://github.com/nf-core/hlatyping'" +:+ chr nl +:+
      "plot_type: 'html'" +:+ chr nl +:+
      "description: 'are collected at run time from the software output.'" +:+ chr nl +:+
      "data: |" +:+ chr nl +:+
      "    <dl class=" +:+ chr dq +:+ "dl-horizontal" +:+ chr dq +:+ ">" +:+ chr nl +:+
      chr nl +:+
      "        <dt>nf-core/hlatyping</dt><dd><samp>" +:+ v "nf-core/hlatyping" +:+ "</samp></dd>" +:+ chr nl +:+
      "        <dt>Nextflow</dt><dd><samp>" +:+ v "Nextflow" +:+ "</samp></dd>" +:+ chr nl +:+
      "        <dt>Samtools</dt><dd><samp>" +:+ v "Samtools" +:+ "</samp></dd>" +:+ chr nl +:+
      "        <dt>Yara</dt><dd><samp>" +:+ v "Yara" +:+ "</samp></dd>" +:+ chr nl +:+
      "        <dt>Optitype</dt><dd><samp>" +:+ v "Optitype" +:+ "</samp></dd>" +:+ chr nl +:+
      "        <dt>MultiQC</dt><dd><samp>" +:+ v "MultiQC" +:+ "</samp></dd>" +:+ chr nl +:+
      "    </dl>" +:+ chr nl ∧
    files st !! "software_versions.csv" =
      Some ("nf-core/hlatyping" +:+ chr tab +:+ v "nf-core/hlatyping" +:+ chr nl +:+
         "Nextflow" +:+ chr tab +:+ v "Nextflow" +:+ chr nl +:+
         "Samtools" +:+ chr tab +:+ v "Samtools" +:+ chr nl +:+
         "Yara" +:+ chr tab +:+ v "Yara" +:+ chr nl +:+
         "Optitype" +:+ chr tab +:+ v "Optitype" +:+ chr nl +:+
         "MultiQC" +:+ chr tab +:+ v "MultiQC" +:+ chr nl).
Proof.
  apply (output_order (reverse regexes_src) fs_example).
  - apply reverse_order.
  - apply fs_example_present.
Defined.

Lemma csv_contents_witness :
  fs_example !! csv_name = Some "stale" ∧
  ∃ st text,
    run regexes_src fs_example = (Ok tt, st) ∧
    files st !! csv_name = Some text ∧
    text = concat_str ((λ kv, kv.1 +:+ chr tab +:+ kv.2 +:+ chr nl) <$> results st) ∧
    count_char nl text = length (results st) ∧
    count_char tab text = length (results st) ∧
    ∀ name, name ≠ csv_name → files st !! name = fs_example !! name.
Proof.
  split; [reflexivity|].
  apply (csv_contents regexes_src fs_example).
  - apply src_order.
  - apply fs_example_present.
Defined.


Lemma stdout_document_witness :
  ∃ st,
    run regexes_src fs_samtools = (Ok tt, st) ∧
    OD.keys (results st) = tools ∧
    stdout st =
      chr nl +:+
      "id: 'software_versions'" +:+ chr nl +:+
      "section_name: 'nf-core/hlatyping Software Versions'" +:+ chr nl +:+
      "section_href: 'https://github.com/nf-core/hlatyping'" +:+ chr nl +:+
      "plot_type: 'html'" +:+ chr nl +:+
      "description: 'are collected at run time from the software output.'" +:+ chr nl +:+
      "data: |" +:+ chr nl +:+
      "    <dl class=" +:+ chr dq +:+ "dl-horizontal" +:+ chr dq +:+ ">" +:+ chr nl +:+
      chr nl +:+
      concat_str
        ((λ kv, "        <dt>" +:+ kv.1 +:+ "</dt><dd><samp>" +:+ kv.2 +:+
                "</samp></dd>" +:+ chr nl) <$> results st) +:+
      "    </dl>" +:+ chr nl.
Proof.
  apply (stdout_document regexes_src fs_samtools).
  - apply src_order.
  - apply fs_samtools_present.
Defined.

Lemma scrape_touches_one_entry_witness :
  let kv := ("Samtools", ("v_samtools.txt", pattern "samtools ")) in
  let st := State fs_example "" init_d init_j in
  OD.getitem "Yara" (results (scrape kv st).2) = OD.getitem "Yara" (results st) ∧
  (kv.1 ∈ OD.keys (results st) →
   OD.keys (results (scrape kv st).2) = OD.keys (results st)) ∧
  files (scrape kv st).2 = files st ∧
  stdout (scrape kv st).2 = stdout st ∧
  ∃ later,
    journal (run (reverse regexes_src) fs_example).2 = init_j ++ later ∧
    writes "Samtools" init_j = 1 ∧ writes "Samtools" later ≤ 1.
Proof.
  apply (scrape_touches_one_entry (reverse regexes_src) fs_example
           ("Samtools", ("v_samtools.txt", pattern "samtools "))
           (State fs_example "" init_d init_j) "Samtools" "Yara").
  - apply reverse_order.
  - simpl. discriminate.
  - unfold tools. do 2 apply list_elem_of_further. apply list_elem_of_here.
Defined.

Lemma samtools_example_witness :
  let na :=
    "<span style=" +:+ chr dq +:+ "color:#999999;" +:+ chr dq +:+ ">N/A</span>" in
  ∃ st,
    run regexes_src fs_samtools = (Ok tt, st) ∧
    results st =
      [("nf-core/hlatyping", na); ("Nextflow", na); ("Samtools", "v1.9");
       ("Yara", na); ("Optitype", na); ("MultiQC", na)] ∧
    stdout st =
      chr nl +:+
      "id: 'software_versions'" +:+ chr nl +:+
      "section_name: 'nf-core/hlatyping Software Versions'" +:+ chr nl +:+
      "section_href: 'https://github.com/nf-core/hlatyping'" +:+ chr nl +:+
      "plot_type: 'html'" +:+ chr nl +:+
      "description: 'are collected at run time from the software output.'" +:+ chr nl +:+
      "data: |" +:+ chr nl +:+
      "    <dl class=" +:+ chr dq +:+ "dl-horizontal" +:+ chr dq +:+ ">" +:+ chr nl +:+
      chr nl +:+
      "        <dt>nf-core/hlatyping</dt><dd><samp>" +:+ na +:+ "</samp></dd>" +:+ chr nl +:+
      "        <dt>Nextflow</dt><dd><samp>" +:+ na +:+ "</samp></dd>" +:+ chr nl +:+
      "        <dt>Samtools</dt><dd><samp>" +:+ "v1.9" +:+ "</samp></dd>" +:+ chr nl +:+
      "        <dt>Yara</dt><dd><samp>" +:+ na +:+ "</samp></dd>" +:+ chr nl +:+
      "        <dt>Optitype</dt><dd><samp>" +:+ na +:+ "</samp></dd>" +:+ chr nl +:+
      "        <dt>MultiQC</dt><dd><samp>" +:+ na +:+ "</samp></dd>" +:+ chr nl +:+
      "    </dl>" +:+ chr nl ∧
    files st !! "software_versions.csv" =
      Some ("nf-core/hlatyping" +:+ chr tab +:+ na +:+ chr nl +:+
         "Nextflow" +:+ chr tab +:+ na +:+ chr nl +:+
         "Samtools" +:+ chr tab +:+ "v1.9" +:+ chr nl +:+
         "Yara" +:+ chr tab +:+ na +:+ chr nl +:+
         "Optitype" +:+ chr tab +:+ na +:+ chr nl +:+
         "MultiQC" +:+ chr tab +:+ na +:+ chr nl).
Proof.
  apply (samtools_example regexes_src fs_samtools).
  - apply src_order.
  - apply fs_samtools_present.
  - reflexivity.
  - apply fs_samtools_others.
Defined.

Lemma run_deterministic_witness :
  stdout (run regexes_src fs_example).2 =
  stdout (run (reverse regexes_src) (delete "software_versions.csv" fs_example)).2 ∧
  (((run regexes_src fs_example).1 = Ok tt ∧
    (run (reverse regexes_src) (delete "software_versions.csv" fs_example)).1 = Ok tt ∧
    ∃ text,
      files (run regexes_src fs_example).2 !! csv_name = Some text ∧
      files (run (reverse regexes_src)
               (delete "software_versions.csv" fs_example)).2 !! csv_name = Some text) ∨
   (∃ file1 file2,
      (run regexes_src fs_example).1 = Raise (FileNotFoundError file1) ∧
      (run (reverse regexes_src) (delete "software_versions.csv" fs_example)).1 =
        Raise (FileNotFoundError file2) ∧
      files (run regexes_src fs_example).2 = fs_example ∧
      files (run (reverse regexes_src)
               (delete "software_versions.csv" fs_example)).2 =
        delete "software_versions.csv" fs_example)).
Proof.
  apply (run_deterministic regexes_src (reverse regexes_src) fs_example
           (delete "software_versions.csv" fs_example)).
  - apply src_order.
  - apply reverse_order.
  - intros file Hin. rewrite lookup_delete_ne; [done|].
    intros <-. unfold inputs in Hin. simpl in Hin.
    repeat (apply elem_of_cons in Hin as [[=]|Hin]).
    by apply elem_of_nil in Hin.
Defined.

(** ** Beyond the table: the search, the loops and the outputs in general *)

Lemma app_same_length (a b x y : string) :
  a +:+ x = b +:+ y → String.length a = String.length b → a = b ∧ x = y.
Proof.
  revert b. induction a as [|c a IH]; intros [|c' b]; simpl; try done.
  rewrite !str_app_cons. intros [= -> Heq] [= Hlen].
  destruct (IH b Heq Hlen) as [-> ->]. done.
Qed.

Lemma version_at_match (p text : string) (pos : nat) :
  version_at p text pos ↔
  pos ≤ String.length text ∧
  is_Some (Re.match_here (pattern p) pos (Re.drop pos text)).
Proof.
  split.
  - intros (pre & c & rest & -> & <- & Hc).
    split; [rewrite length_app_str; lia|].
    rewrite drop_app_length, match_here_pattern.
    by apply version_here_is_Some.
  - intros (Hpos & [m Hm]). rewrite match_here_pattern in Hm.
    apply version_here_Some in Hm as (g & rest & Hs & Hg & Hall & _ & _).
    destruct g as [|c g]; [done|]. simpl in Hall.
    apply andb_true_iff in Hall as [Hc%negb_true_iff _].
    exists (Re.take pos text), c, (g +:+ rest).
    split; [|split; [by apply length_take_le|done]].
    rewrite <- str_app_cons, <- Hs. by rewrite take_drop_str.
Qed.

(** What [re.search] returns for a table pattern, without the matcher. *)
Lemma search_pattern_elim (p text : string) (m : Re.match_obj) :
  Re.search (pattern p) text = Some m →
  ∃ pre g rest,
    text = pre +:+ p +:+ g +:+ rest ∧
    g ≠ "" ∧ all_nonspace g = true ∧ stops rest ∧
    (∀ pos, version_at p text pos → String.length pre ≤ pos) ∧
    m = Re.MatchObj (String.length pre) (p +:+ g) [(1, g)].
Proof.
  intros (Hle & Hm & Hlt)%search_first_match.
  pose proof Hm as Hm'. rewrite match_here_pattern in Hm'.
  apply version_here_Some in Hm' as (g & rest & Hs & Hg & Hall & Hrest & Hmeq).
  assert (String.length (Re.take (Re.m_start m) text) = Re.m_start m) as Hlen
    by by apply length_take_le.
  exists (Re.take (Re.m_start m) text), g, rest.
  split; [by rewrite <- Hs, take_drop_str|].
  split; [done|]. split; [done|]. split; [done|].
  split; [|by rewrite Hlen].
  intros pos Hat. rewrite Hlen.
  destruct (decide (Re.m_start m ≤ pos)) as [|Hnle]; [done|].
  apply version_at_match in Hat as [_ [m' Hm'']].
  rewrite Hlt in Hm'' by lia. done.
Qed.

Lemma search_pattern_intro (p pre g rest : string) :
  g ≠ "" → all_nonspace g = true → stops rest →
  (∀ pos, version_at p (pre +:+ p +:+ g +:+ rest) pos → String.length pre ≤ pos) →
  Re.search (pattern p) (pre +:+ p +:+ g +:+ rest) =
  Some (Re.MatchObj (String.length pre) (p +:+ g) [(1, g)]).
Proof.
  intros Hg Hall Hrest Hleast.
  set (text := pre +:+ p +:+ g +:+ rest) in *.
  assert (version_at p text (String.length pre)) as Hat.
  { destruct g as [|c g]; [done|]. simpl in Hall.
    apply andb_true_iff in Hall as [Hc%negb_true_iff _].
    exists pre, c, (g +:+ rest). by rewrite <- str_app_cons. }
  assert (has_match (pattern p) text) as [m Hm]%has_match_search.
  { exists (String.length pre). by apply version_at_match. }
  rewrite Hm. f_equal.
  destruct (search_pattern_elim p text m Hm)
    as (pre' & g' & rest' & Htext & Hg' & Hall' & Hrest' & Hleast' & ->).
  assert (version_at p text (String.length pre')) as Hat'.
  { destruct g' as [|c g']; [done|]. simpl in Hall'.
    apply andb_true_iff in Hall' as [Hc%negb_true_iff _].
    exists pre', c, (g' +:+ rest'). by rewrite <- str_app_cons. }
  assert (String.length pre' = String.length pre) as Hlen.
  { apply Nat.le_antisymm; [by apply Hleast'|by apply Hleast]. }
  unfold text in Htext. symmetry in Htext.
  destruct (app_same_length _ _ _ _ Htext Hlen) as [-> Htail].
  apply (inj (String.app p)) in Htail.
  assert (g' = g) as ->; [|done].
  rewrite <- (nonspace_run_app g' rest' Hall' Hrest').
  rewrite Htail. by apply nonspace_run_app.
Qed.

Lemma version_at_decomposition (p pre g rest : string) :
  g ≠ "" → all_nonspace g = true →
  version_at p (pre +:+ p +:+ g +:+ rest) (String.length pre).
Proof.
  intros Hg Hall. destruct g as [|c g]; [done|]. simpl in Hall.
  apply andb_true_iff in Hall as [Hc%negb_true_iff _].
  exists pre, c, (g +:+ rest). by rewrite <- str_app_cons.
Qed.

Lemma search_pattern_None (p text : string) :
  Re.search (pattern p) text = None ↔ ∀ pos, ¬ version_at p text pos.
Proof.
  split.
  - intros Hs pos Hat%version_at_match.
    assert (is_Some (Re.search (pattern p) text)) as [m Hm].
    { apply has_match_search. by exists pos. }
    congruence.
  - intros Hno. destruct (Re.search (pattern p) text) as [m|] eqn:Hs; [|done].
    apply search_first_match in Hs as (Hle & Hm & _).
    destruct (Hno (Re.m_start m)). apply version_at_match.
    split; [done|]. by rewrite Hm.
Qed.

(** X1. [re.search] with a pattern of the table, read without the matcher:
    it finds the leftmost place where the pattern's ordinary characters are
    followed by a character that is not white space; group 1 is the whole
    run of such characters from there, and the match is the ordinary
    characters and that run. It finds nothing exactly when there is no such
    place. *)
Theorem search_pattern_spec (p text : string) (m : Re.match_obj) :
  (Re.search (pattern p) text = Some m ↔
   ∃ pre g rest,
     text = pre +:+ p +:+ g +:+ rest ∧
     g ≠ "" ∧ all_nonspace g = true ∧ stops rest ∧
     (∀ pos, version_at p text pos → String.length pre ≤ pos) ∧
     m = Re.MatchObj (String.length pre) (p +:+ g) [(1, g)]) ∧
  (Re.search (pattern p) text = None ↔ ∀ pos, ¬ version_at p text pos).
Proof.
  split; [|apply search_pattern_None]. split.
  - apply search_pattern_elim.
  - intros (pre & g & rest & -> & Hg & Hall & Hrest & Hleast & ->).
    by apply search_pattern_intro.
Qed.

Lemma NA_not_version (x : string) : NA ≠ "v" +:+ x.
Proof. rewrite NA_value. discriminate. Qed.

(** X2. The entry of a tool after a completed run, read off its file: it is
    the placeholder exactly when the file has no place where the pattern's
    ordinary characters are followed by a character that is not white
    space; otherwise it is ["v"] and the run of such characters at the
    leftmost such place. *)
Theorem entry_from_file (items : list (string * (string * Re.regex)))
    (fs : gmap string string) (k file p text : string) :
  items ≡ₚ map_to_list regexes → all_present fs →
  regexes !! k = Some (file, pattern p) → fs !! file = Some text →
  ∃ st,
    run items fs = (Ok tt, st) ∧
    (OD.getitem k (results st) = Some NA ↔ ∀ pos, ¬ version_at p text pos) ∧
    ∀ pre g rest,
      text = pre +:+ p +:+ g +:+ rest →
      g ≠ "" → all_nonspace g = true → stops rest →
      (∀ pos, version_at p text pos → String.length pre ≤ pos) →
      OD.getitem k (results st) = Some ("v" +:+ g).
Proof.
  intros Hp Hall Hk Hf. eexists. split; [by apply run_complete|].
  cbn [results].
  rewrite final_results_get by (apply tools_lookup; by eexists).
  rewrite (value_of_lookup fs k file _ text Hk Hf).
  split.
  - rewrite <- search_pattern_None.
    destruct (Re.search (pattern p) text) as [m|]; [|done].
    split; [|done]. intros Heq.
    destruct (NA_not_version (format_group (Re.group 1 m))). congruence.
  - intros pre g rest -> Hg Hnon Hrest Hleast.
    by rewrite (search_pattern_intro p pre g rest Hg Hnon Hrest Hleast).
Qed.

Lemma all_space_least (pre tail pre' : string) (c : ascii) (rest' : string) :
  all_space pre = true → pre +:+ tail = pre' +:+ String c rest' →
  Re.isspace c = false → String.length pre ≤ String.length pre'.
Proof.
  revert pre'. induction pre as [|a pre IH]; intros pre' Hsp Heq Hc; simpl; [lia|].
  simpl in Hsp. apply andb_true_iff in Hsp as [Ha Hsp].
  destruct pre' as [|a' pre'].
  - rewrite str_app_cons, str_app_nil_l in Heq. injection Heq as -> _. congruence.
  - rewrite !str_app_cons in Heq. injection Heq as -> Heq.
    simpl. specialize (IH pre' Hsp Heq Hc). lia.
Qed.

Lemma all_space_no_version (text : string) (pos : nat) :
  all_space text = true → ¬ version_at "" text pos.
Proof.
  intros Hsp (pre & c & rest & Heq & _ & Hc).
  rewrite str_app_nil_l in Heq.
  pose proof (all_space_least text "" pre c rest Hsp) as Hle.
  rewrite str_app_nil_r in Hle. specialize (Hle Heq Hc).
  rewrite Heq, length_app_str in Hle. simpl in Hle. lia.
Qed.

(** X3. For the two tools whose pattern is [(\S+)] alone (lines 8-9) the
    entry is ["v"] and the first word of the file, and the placeholder when
    the file is empty or all white space. *)
Theorem entry_is_first_word (items : list (string * (string * Re.regex)))
    (fs : gmap string string) (k file text : string) :
  items ≡ₚ map_to_list regexes → all_present fs →
  regexes !! k = Some (file, pattern "") → fs !! file = Some text →
  ∃ st,
    run items fs = (Ok tt, st) ∧
    (all_space text = true → OD.getitem k (results st) = Some NA) ∧
    ∀ pre g rest,
      text = pre +:+ g +:+ rest →
      all_space pre = true → g ≠ "" → all_nonspace g = true → stops rest →
      OD.getitem k (results st) = Some ("v" +:+ g).
Proof.
  intros Hp Hall Hk Hf. eexists. split; [by apply run_complete|].
  cbn [results].
  rewrite final_results_get by (apply tools_lookup; by eexists).
  rewrite (value_of_lookup fs k file _ text Hk Hf).
  split.
  - intros Hsp.
    assert (Re.search (pattern "") text = None) as ->; [|done].
    apply search_pattern_None. intros pos. by apply all_space_no_version.
  - intros pre g rest -> Hsp Hg Hnon Hrest.
    change (pre +:+ g +:+ rest) with (pre +:+ "" +:+ g +:+ rest).
    rewrite (search_pattern_intro "" pre g rest Hg Hnon Hrest); [done|].
    intros pos (pre' & c & rest' & Heq & <- & Hc).
    rewrite !str_app_nil_l in Heq. by eapply all_space_least.
Qed.

(** X4. A reported version is never empty and holds no white space: every
    value of a completed run is the placeholder or ["v"] followed by a
    non-empty text without white space. *)
Theorem versions_are_words (items : list (string * (string * Re.regex)))
    (fs : gmap string string) :
  items ≡ₚ map_to_list regexes → all_present fs →
  ∃ st,
    run items fs = (Ok tt, st) ∧
    ∀ k v, (k, v) ∈ results st →
      v = NA ∨ ∃ g, v = "v" +:+ g ∧ g ≠ "" ∧ all_nonspace g = true.
Proof.
  intros Hp Hall. eexists. split; [by apply run_complete|].
  cbn [results]. intros k v (k' & [= -> ->] & Hk')%list_elem_of_fmap.
  unfold value_of. destruct (regexes !! k') as [e|] eqn:He; [|by left].
  destruct (scraped fs e) as [x|] eqn:Hx; [|by left].
  right. by apply (scraped_nonspace fs k' e x).
Qed.

(** X5. With the table in any order and whatever the directory holds, the
    script's own handling of [results] never fails: line 33 never raises
    [KeyError] and the loop of lines 32-34 never raises [RuntimeError],
    whether the run completes or stops at a missing file. *)
Theorem no_dictionary_error (items : list (string * (string * Re.regex)))
    (fs : gmap string string) :
  items ≡ₚ map_to_list regexes →
  (run items fs).1 ≠ Raise RuntimeError ∧
  ∀ k, (run items fs).1 ≠ Raise (KeyError k).
Proof.
  intros Hp.
  destruct (run_cases items fs Hp) as [(Hall & ->)|(kv & Hin & Hn & ->)];
    cbn [fst]; split; try intros k; discriminate.
Qed.

Lemma loop_outcome_first (fs : gmap string string)
    (before after : list (string * (string * Re.regex)))
    (kv : string * (string * Re.regex)) :
  (∀ kv', kv' ∈ before → is_Some (fs !! kv'.2.1)) → fs !! kv.2.1 = None →
  loop_outcome fs (before ++ kv :: after) = Raise (FileNotFoundError kv.2.1) ∧
  processed fs (before ++ kv :: after) = before.
Proof.
  intros Hall Hn. induction before as [|kv' before IH]; simpl.
  - by rewrite Hn.
  - destruct (Hall kv' (list_elem_of_here _ _)) as [text ->].
    destruct IH as [-> ->]; [|done].
    intros kv'' Hin. apply Hall. by apply list_elem_of_further.
Qed.

(** X6. For any list of items, table or not: the loop opens the files in
    the order of the list, so the exception names the first item's file
    that is missing, whatever is missing further on; the items before it
    have been scraped, nothing is printed and no file is written. *)
Theorem first_missing_is_reported (fs : gmap string string)
    (before after : list (string * (string * Re.regex)))
    (k file : string) (pat : Re.regex) :
  (∀ kv, kv ∈ before → is_Some (fs !! kv.2.1)) → fs !! file = None →
  run (before ++ (k, (file, pat)) :: after) fs =
  (Raise (FileNotFoundError file),
   State fs "" (foldl (update fs) init_d before)
     (init_j ++ omap (assignment fs) before)).
Proof.
  intros Hall Hn. unfold run. rewrite script_split.
  apply bind_raise. rewrite extraction_run.
  destruct (loop_outcome_first fs before after (k, (file, pat)) Hall Hn) as [-> ->].
  done.
Qed.

Lemma csv_not_input : csv_name ∉ inputs.
Proof.
  unfold inputs. simpl. intros Hin.
  repeat (apply elem_of_cons in Hin as [[=]|Hin]).
  by apply elem_of_nil in Hin.
Qed.

(** X7. Running the script again in the directory a completed run left
    behind, in any order, completes too, prints the same text and leaves
    the directory as it is: the csv file is not an input. *)
Theorem rerun_is_stable (items items' : list (string * (string * Re.regex)))
    (fs : gmap string string) :
  items ≡ₚ map_to_list regexes → items' ≡ₚ map_to_list regexes →
  all_present fs →
  ∃ st',
    run items' (files (run items fs).2) = (Ok tt, st') ∧
    stdout st' = stdout (run items fs).2 ∧
    files st' = files (run items fs).2 ∧
    results st' = results (run items fs).2.
Proof.
  intros Hp Hp' Hall. rewrite (run_complete items fs Hp Hall). cbn [snd files stdout results].
  set (fs' := <[csv_name := csv_text (final_results fs)]> fs).
  assert (∀ file, file ∈ inputs → fs' !! file = fs !! file) as Hag.
  { intros file Hin. apply lookup_insert_ne. intros <-. by apply csv_not_input. }
  assert (all_present fs') as Hall'.
  { apply all_present_inputs. intros file Hin. rewrite Hag by done.
    by apply (proj1 (all_present_inputs fs) Hall). }
  eexists. split; [by apply run_complete|]. cbn [stdout files results].
  rewrite (final_results_agree fs' fs Hag).
  split; [done|]. split; [|done].
  unfold fs'. by rewrite insert_insert_eq.
Qed.

(** *** The loop of lines 32-34 on any mapping *)

Lemma keys_app (d1 d2 : OD.t) : OD.keys (d1 ++ d2) = OD.keys d1 ++ OD.keys d2.
Proof. unfold OD.keys. apply map_app. Qed.

Lemma getitem_app_r (k : string) (d1 d2 : OD.t) :
  k ∉ OD.keys d1 → OD.getitem k (d1 ++ d2) = OD.getitem k d2.
Proof.
  induction d1 as [|[k1 v1] d1 IH]; simpl; [done|].
  intros [Hne Hnin]%not_elem_of_cons.
  apply String.eqb_neq in Hne. rewrite Hne. by apply IH.
Qed.

Lemma getitem_app_l (k : string) (d1 d2 : OD.t) :
  k ∈ OD.keys d1 →
  ∃ v, OD.getitem k (d1 ++ d2) = Some v ∧ (k, v) ∈ d1.
Proof.
  induction d1 as [|[k1 v1] d1 IH]; simpl.
  - by intros ?%elem_of_nil.
  - intros Hin. destruct (String.eqb_spec k k1) as [->|Hne].
    + exists v1. split; [done|apply list_elem_of_here].
    + apply elem_of_cons in Hin as [?|Hin]; [done|].
      destruct (IH Hin) as (v & Hv & Hvin). exists v.
      split; [done|by apply list_elem_of_further].
Qed.

Lemma delitem_app_r (k : string) (d1 d2 : OD.t) :
  k ∉ OD.keys d1 → OD.delitem k (d1 ++ d2) = d1 ++ OD.delitem k d2.
Proof.
  induction d1 as [|[k1 v1] d1 IH]; simpl; [done|].
  intros [Hne Hnin]%not_elem_of_cons.
  apply String.eqb_neq in Hne. rewrite Hne. by rewrite IH.
Qed.

Lemma remove_loop_skip (ks1 ks2 : list string) (st : state) :
  (∀ k, k ∈ ks1 → ∃ v, OD.getitem k (results st) = Some v ∧ falsy v = false) →
  remove_loop (ks1 ++ ks2) false st = remove_loop ks2 false st.
Proof.
  induction ks1 as [|k ks1 IH]; intros Hall; simpl; [done|].
  destruct (Hall k (list_elem_of_here _ _)) as (v & Hv & Hf).
  unfold bind, results_get. rewrite Hv, Hf.
  apply IH. intros k' Hk'. apply Hall. by apply list_elem_of_further.
Qed.

(** X8. Lines 32-34 on a mapping that does hold a falsy value: the entries
    before the first one are kept, that one is deleted, and the loop then
    ends at once, normally when the deleted entry was the last and with
    [RuntimeError] otherwise. Later falsy entries are never removed, and
    nothing is printed or written. *)
Theorem remove_falsy_first (st : state) (d1 d2 : OD.t) (k : string) :
  results st = d1 ++ (k, "") :: d2 →
  (∀ kv, kv ∈ d1 → falsy kv.2 = false) → k ∉ OD.keys d1 →
  remove_falsy st =
  (match d2 with [] => Ok tt | _ :: _ => Raise RuntimeError end,
   State (files st) (stdout st) (d1 ++ d2) (journal st ++ [DelItem k])).
Proof.
  intros Hres Htruthy Hk.
  unfold remove_falsy, bind at 1, results_read. rewrite Hres at 1.
  rewrite keys_app. cbn [OD.keys map fst].
  rewrite remove_loop_skip.
  - cbn [remove_loop]. unfold bind at 1, results_get. rewrite Hres.
    rewrite getitem_app_r by done. cbn [OD.getitem]. rewrite String.eqb_refl.
    cbn [falsy]. unfold bind, results_del. rewrite Hres.
    rewrite getitem_app_r by done. cbn [OD.getitem]. rewrite String.eqb_refl.
    rewrite delitem_app_r by done. cbn [OD.delitem]. rewrite String.eqb_refl.
    by destruct d2 as [|[k2 v2] d2].
  - intros k' Hk'. rewrite Hres.
    destruct (getitem_app_l k' d1 ((k, "") :: d2) Hk') as (v & Hv & Hvin).
    exists v. split; [done|]. apply (Htruthy (k', v) Hvin).
Qed.

(** *** Assignments to the mapping *)

Lemma setitem_new (k v : string) (d : OD.t) :
  k ∉ OD.keys d → OD.setitem k v d = d ++ [(k, v)].
Proof.
  induction d as [|[k1 v1] d IH]; simpl; [done|].
  intros [Hne Hnin]%not_elem_of_cons.
  apply String.eqb_neq in Hne. rewrite Hne. by rewrite IH.
Qed.

(** X9. [results[k] = v] on a mapping with distinct keys: the keys stay
    distinct, [results[k]] then reads [v] and every other key reads what it
    read before; a key that was there keeps its place in the order, a new
    key goes last. *)
Theorem setitem_spec (k v : string) (d : OD.t) :
  NoDup (OD.keys d) →
  NoDup (OD.keys (OD.setitem k v d)) ∧
  OD.getitem k (OD.setitem k v d) = Some v ∧
  (∀ k', k' ≠ k → OD.getitem k' (OD.setitem k v d) = OD.getitem k' d) ∧
  (k ∈ OD.keys d → OD.keys (OD.setitem k v d) = OD.keys d) ∧
  (k ∉ OD.keys d → OD.setitem k v d = d ++ [(k, v)]).
Proof.
  intros Hnd.
  split; [|split; [apply getitem_setitem_eq|split;
    [intros k' Hne; by apply getitem_setitem_ne|split;
      [apply keys_setitem|apply setitem_new]]]].
  destruct (decide (k ∈ OD.keys d)) as [Hin|Hnin].
  - by rewrite keys_setitem.
  - rewrite setitem_new, keys_app by done. apply NoDup_app.
    split; [done|]. split; [|apply NoDup_singleton].
    intros k' Hk' ->%list_elem_of_singleton. done.
Qed.

(** X10. Lines 36-53 for any mapping and any state, as far as the texts
    go: [results] is left alone; stdout keeps what it held and gains the
    head, an empty line, one [<dt>/<dd>] line per entry in order and the
    closing line; the csv file holds one line of tool, tab, value, newline
    per entry in order, so nothing for an empty mapping; no other file
    changes. *)
Theorem emit_any_mapping (st : state) :
  results (emit st).2 = results st ∧
  stdout (emit st).2 =
    stdout st +:+
    chr nl +:+
    "id: 'software_versions'" +:+ chr nl +:+
    "section_name: 'nf-core/hlatyping Software Versions'" +:+ chr nl +:+
    "section_href: 'https://github.com/nf-core/hlatyping'" +:+ chr nl +:+
    "plot_type: 'html'" +:+ chr nl +:+
    "description: 'are collected at run time from the software output.'" +:+ chr nl +:+
    "data: |" +:+ chr nl +:+
    "    <dl class=" +:+ chr dq +:+ "dl-horizontal" +:+ chr dq +:+ ">" +:+ chr nl +:+
    chr nl +:+
    concat_str
      ((λ kv, "        <dt>" +:+ kv.1 +:+ "</dt><dd><samp>" +:+ kv.2 +:+
              "</samp></dd>" +:+ chr nl) <$> results st) +:+
    "    </dl>" +:+ chr nl ∧
  files (emit st).2 !! "software_versions.csv" =
    Some (concat_str ((λ kv, kv.1 +:+ chr tab +:+ kv.2 +:+ chr nl) <$> results st)) ∧
  ∀ name, name ≠ "software_versions.csv" →
          files (emit st).2 !! name = files st !! name.
Proof.
  assert (emit st =
    (Ok tt,
     State (<[csv_name := csv_text (results st)]> (files st))
           (stdout st +:+ report (results st))
           (results st) (journal st))) as ->.
  { unfold emit. rewrite (bind_ok _ _ _ _ _ (dump_yaml_run st)).
    by rewrite write_csv_run. }
  cbn [snd files stdout results].
  split; [done|]. split; [|split].
  - unfold report.
    rewrite (list_fmap_ext (λ kv, dt_dd kv +:+ chr nl)
               (λ kv, "        <dt>" +:+ kv.1 +:+ "</dt><dd><samp>" +:+ kv.2 +:+
                      "</samp></dd>" +:+ chr nl) (results st)).
    + reflexivity.
    + intros i kv _. unfold dt_dd. by rewrite !app_assoc_str.
  - apply lookup_insert_eq.
  - intros name Hne. by apply lookup_insert_ne.
Qed.

(** *** Items whose key has no default *)



(** *** The further theorems at concrete inputs *)

Lemma entry_from_file_witness :
  ∃ st,
    run regexes_src fs_example = (Ok tt, st) ∧
    (OD.getitem "Samtools" (results st) = Some NA ↔
     ∀ pos, ¬ version_at "samtools " ("samtools 1.9" +:+ chr nl) pos) ∧
    ∀ pre g rest,
      "samtools 1.9" +:+ chr nl = pre +:+ "samtools " +:+ g +:+ rest →
      g ≠ "" → all_nonspace g = true → stops rest →
      (∀ pos, version_at "samtools " ("samtools 1.9" +:+ chr nl) pos →
              String.length pre ≤ pos) →
      OD.getitem "Samtools" (results st) = Some ("v" +:+ g).
Proof.
  apply (entry_from_file regexes_src fs_example "Samtools" "v_samtools.txt"
           "samtools " ("samtools 1.9" +:+ chr nl)).
  - apply src_order.
  - apply fs_example_present.
  - reflexivity.
  - reflexivity.
Defined.

Lemma entry_is_first_word_witness :
  ∃ st,
    run (reverse regexes_src) fs_example = (Ok tt, st) ∧
    (all_space "1.0dev" = true →
     OD.getitem "nf-core/hlatyping" (results st) = Some NA) ∧
    ∀ pre g rest,
      "1.0dev" = pre +:+ g +:+ rest →
      all_space pre = true → g ≠ "" → all_nonspace g = true → stops rest →
      OD.getitem "nf-core/hlatyping" (results st) = Some ("v" +:+ g).
Proof.
  apply (entry_is_first_word (reverse regexes_src) fs_example
           "nf-core/hlatyping" "v_pipeline.txt" "1.0dev").
  - apply reverse_order.
  - apply fs_example_present.
  - reflexivity.
  - reflexivity.
Defined.

Lemma versions_are_words_witness :
  ∃ st,
    run regexes_src fs_example = (Ok tt, st) ∧
    ∀ k v, (k, v) ∈ results st →
      v = NA ∨ ∃ g, v = "v" +:+ g ∧ g ≠ "" ∧ all_nonspace g = true.
Proof.
  apply (versions_are_words regexes_src fs_example).
  - apply src_order.
  - apply fs_example_present.
Defined.

Lemma no_dictionary_error_witness :
  (run regexes_src fs_no_yara).1 ≠ Raise RuntimeError ∧
  ∀ k, (run regexes_src fs_no_yara).1 ≠ Raise (KeyError k).
Proof.
  apply (no_dictionary_error regexes_src fs_no_yara). apply src_order.
Defined.

Lemma first_missing_is_reported_witness :
  run ([("MultiQC", ("v_multiqc.txt", pattern "multiqc, version "))] ++
       ("Optitype", ("v_optitype.txt", pattern "Version: ")) ::
       [("Yara", ("v_yara.txt", pattern "yara_mapper version: "));
        ("Samtools", ("v_samtools.txt", pattern "samtools "));
        ("Nextflow", ("v_nextflow.txt", pattern ""));
        ("nf-core/hlatyping", ("v_pipeline.txt", pattern ""))])
      fs_two_missing =
  (Raise (FileNotFoundError "v_optitype.txt"),
   State fs_two_missing ""
     (foldl (update fs_two_missing) init_d
        [("MultiQC", ("v_multiqc.txt", pattern "multiqc, version "))])
     (init_j ++ omap (assignment fs_two_missing)
        [("MultiQC", ("v_multiqc.txt", pattern "multiqc, version "))])).
Proof.
  apply (first_missing_is_reported fs_two_missing
           [("MultiQC", ("v_multiqc.txt", pattern "multiqc, version "))]).
  - intros kv ->%list_elem_of_singleton. by eexists.
  - reflexivity.
Defined.

Lemma rerun_is_stable_witness :
  ∃ st',
    run (reverse regexes_src) (files (run regexes_src fs_example).2) = (Ok tt, st') ∧
    stdout st' = stdout (run regexes_src fs_example).2 ∧
    files st' = files (run regexes_src fs_example).2 ∧
    results st' = results (run regexes_src fs_example).2.
Proof.
  apply (rerun_is_stable regexes_src (reverse regexes_src) fs_example).
  - apply src_order.
  - apply reverse_order.
  - apply fs_example_present.
Defined.

Lemma remove_falsy_first_witness :
  remove_falsy (State ∅ "" [("a", "x"); ("b", ""); ("c", "")] []) =
  (Raise RuntimeError, State ∅ "" [("a", "x"); ("c", "")] [DelItem "b"]).
Proof.
  apply (remove_falsy_first (State ∅ "" [("a", "x"); ("b", ""); ("c", "")] [])
           [("a", "x")] [("c", "")] "b").
  - reflexivity.
  - intros kv ->%list_elem_of_singleton. reflexivity.
  - simpl. intros [=]%list_elem_of_singleton.
Defined.

Lemma setitem_spec_witness :
  NoDup (OD.keys (OD.setitem "a" "3" [("a", "1"); ("b", "2")])) ∧
  OD.getitem "a" (OD.setitem "a" "3" [("a", "1"); ("b", "2")]) = Some "3" ∧
  (∀ k', k' ≠ "a" →
         OD.getitem k' (OD.setitem "a" "3" [("a", "1"); ("b", "2")]) =
         OD.getitem k' [("a", "1"); ("b", "2")]) ∧
  ("a" ∈ OD.keys [("a", "1"); ("b", "2")] →
   OD.keys (OD.setitem "a" "3" [("a", "1"); ("b", "2")]) =
   OD.keys [("a", "1"); ("b", "2")]) ∧
  ("a" ∉ OD.keys [("a", "1"); ("b", "2")] →
   OD.setitem "a" "3" [("a", "1"); ("b", "2")] =
   [("a", "1"); ("b", "2")] ++ [("a", "3")]).
Proof.
  apply (setitem_spec "a" "3" [("a", "1"); ("b", "2")]).
  apply (bool_decide_unpack _). by vm_compute.
Defined.


(** The entries made without defaults come in the order of the loop. *)
Example scrape_without_defaults_order :
  results (for_each
             [("Samtools", ("v_samtools.txt", pattern "samtools "));
              ("MultiQC", ("v_multiqc.txt", pattern "multiqc, version "))]
             scrape (State fs_example "" [] [])).2 =
    [("Samtools", "v1.9"); ("MultiQC", "v1.7")] ∧
  results (for_each
             [("MultiQC", ("v_multiqc.txt", pattern "multiqc, version "));
              ("Samtools", ("v_samtools.txt", pattern "samtools "))]
             scrape (State fs_example "" [] [])).2 =
    [("MultiQC", "v1.7"); ("Samtools", "v1.9")].
Proof. split; vm_compute; reflexivity. Qed.
